(** * Tredgate Loan: loan lifecycle and audit log

    A shallow embedding of [src/services/auditLogService.ts] (with the types
    of [src/types/auditLog.ts]), of the loan store the specification
    describes, and of the scripts and templates of the components
    [LoanList.vue], [DeleteModal.vue] and [AuditLogViewer.vue], followed by
    the properties of the specification and further properties of the code,
    stated and proved over it.

    Conventions of the embedding.
    - A JavaScript string is a [string]: a sequence of code units, here the
      code units below 256 (Basic Latin and Latin-1).  On those,
      [toLowerCase], [trim] and [includes] below compute what ECMAScript's
      [String.prototype] methods compute.
    - A JavaScript [number] that is only compared (the amount, the rate and
      the term in the validation and in the auto-decision) is a rational [Q],
      a term in months an integer [Z]: comparison is exact on these.  Where
      the code computes with numbers (the monthly payment) they are binary64
      ([float]), with its rounding, its infinities and NaN.
    - [localStorage] is a finite map from keys to strings, threaded through
      the functions that read or write it ([World]); a write always
      succeeds (no quota).
    - [JSON.stringify], [JSON.parse], the clock and the random source belong
      to the platform: they are interfaces ([JSON], [Platform]), and the
      laws assumed of them are stated where they are used.
    - A component is the state of its refs and the events it has emitted; a
      handler is a function on that state, and the [v-if]s of a template are
      the conditions under which an action is offered.
    - [Array.prototype.sort] is the stable sort by its comparator where the
      comparator is consistent; [new Date(s).getTime()] is the time of a
      time stamp that is a date and NaN ([None]) of any other string. *)

From Stdlib Require Import String Ascii List ZArith QArith Lia Bool PrimFloat.
From Stdlib Require Import Sorted Permutation.
From stdpp Require Import base strings gmap list countable pretty.

Open Scope string_scope.

(** * The embedding *)

(** ** ECMAScript string methods used by the service *)

Module JSString.

(** Code units that [trim] strips: TAB, LF, VT, FF, CR, SPACE and
    NO-BREAK SPACE (the WhiteSpace and LineTerminator code points below
    256). *)
Definition is_whitespace (c : ascii) : bool :=
  let n := N_of_ascii c in
  ((9 <=? n) && (n <=? 13) || (n =? 32) || (n =? 160))%N.

(** Upper-case letters with a one-to-one lower-case mapping below 256:
    A-Z, and U+00C0-U+00DE except the multiplication sign U+00D7. *)
Definition is_upper (c : ascii) : bool :=
  let n := N_of_ascii c in
  ((65 <=? n) && (n <=? 90)
   || (192 <=? n) && (n <=? 222) && negb (n =? 215))%N.

Definition lower_char (c : ascii) : ascii :=
  if is_upper c then ascii_of_N (N_of_ascii c + 32) else c.

(** [s.toLowerCase()] *)
Fixpoint toLowerCase (s : string) : string :=
  match s with
  | EmptyString => EmptyString
  | String c s' => String (lower_char c) (toLowerCase s')
  end.

(** [s.trimStart()] *)
Fixpoint trimStart (s : string) : string :=
  match s with
  | EmptyString => EmptyString
  | String c s' => if is_whitespace c then trimStart s' else s
  end.

Definition is_empty (s : string) : bool :=
  match s with EmptyString => true | String _ _ => false end.

(** [s.trimEnd()] *)
Fixpoint trimEnd (s : string) : string :=
  match s with
  | EmptyString => EmptyString
  | String c s' =>
      let r := trimEnd s' in
      if is_whitespace c && is_empty r then EmptyString else String c r
  end.

(** [s.trim()] *)
Definition trim (s : string) : string := trimEnd (trimStart s).

(** [hay.startsWith(needle)] *)
Fixpoint startsWith (needle hay : string) : bool :=
  match needle, hay with
  | EmptyString, _ => true
  | String _ _, EmptyString => false
  | String a n', String b h' => Ascii.eqb a b && startsWith n' h'
  end.

(** [hay.includes(needle)]: [needle] occurs in [hay] at some offset. *)
Fixpoint includes (needle hay : string) : bool :=
  startsWith needle hay ||
  match hay with
  | EmptyString => false
  | String _ h' => includes needle h'
  end.

(** JavaScript truthiness of a string: every string but the empty one. *)
Definition truthy (s : string) : bool := negb (is_empty s).

(** The specification's "empty or whitespace-only". *)
Fixpoint whitespace_only (s : string) : bool :=
  match s with
  | EmptyString => true
  | String c s' => is_whitespace c && whitespace_only s'
  end.

End JSString.

Import JSString.

(** ** Data model *)

(** Modelled from the spec: [src/types/loan.ts] is not among the sources;
    [LoanStatus] follows section 3 of the specification,
    "one of pending | approved | rejected". *)
Inductive LoanStatus : Type := pending | approved | rejected.

(** The string a status is at run time (used in template literals). *)
Definition LoanStatus_string (s : LoanStatus) : string :=
  match s with
  | pending => "pending"
  | approved => "approved"
  | rejected => "rejected"
  end.

(** [src/types/auditLog.ts]: [AuditActionType]. *)
Inductive AuditActionType : Type :=
  | LOAN_CREATED
  | STATUS_CHANGED_MANUAL
  | STATUS_CHANGED_AUTO
  | LOAN_DELETED.

Definition AuditActionType_string (a : AuditActionType) : string :=
  match a with
  | LOAN_CREATED => "LOAN_CREATED"
  | STATUS_CHANGED_MANUAL => "STATUS_CHANGED_MANUAL"
  | STATUS_CHANGED_AUTO => "STATUS_CHANGED_AUTO"
  | LOAN_DELETED => "LOAN_DELETED"
  end.

(** [a === b] on action types: equality of the two strings. *)
Definition AuditActionType_eqb (a b : AuditActionType) : bool :=
  String.eqb (AuditActionType_string a) (AuditActionType_string b).

(** Modelled from the spec: [LoanApplication] of [src/types/loan.ts], after
    section 3 of the specification (field names as the tests build it). *)
Module LoanApplication.
Record t : Type := mk {
  id : string;
  applicantName : string;
  amount : Q;
  termMonths : Z;
  interestRate : Q;
  status : LoanStatus;
  createdAt : string
}.
End LoanApplication.

(** [Pick<LoanApplication, 'id' | 'applicantName' | 'amount'>] *)
Module LoanPick.
Record t : Type := mk {
  id : string;
  applicantName : string;
  amount : Q
}.

(** A [LoanApplication] passed where the [Pick] is expected. *)
Definition of_loan (loan : LoanApplication.t) : t :=
  {| id := LoanApplication.id loan;
     applicantName := LoanApplication.applicantName loan;
     amount := LoanApplication.amount loan |}.
End LoanPick.

(** [src/types/auditLog.ts]: [AuditLogEntry].  The optional properties are
    options: [None] is an absent (or [undefined]) property. *)
Module AuditLogEntry.
Record t : Type := mk {
  id : string;
  timestamp : string;
  actionType : AuditActionType;
  loanId : string;
  applicantName : string;
  amount : Q;
  previousStatus : option LoanStatus;
  newStatus : option LoanStatus;
  description : string
}.
End AuditLogEntry.

(** ** The platform *)

(** [JSON.stringify] and [JSON.parse] at the type of the stored value.
    [JSON_parse s = None] is [JSON.parse(s)] throwing a [SyntaxError].  The
    service casts what [JSON.parse] returns to the type it stored
    ([as AuditLogEntry[]]) without a check; the model follows the cast and
    reads a stored text at that type. *)
Class JSON (A : Type) : Type := {
  JSON_stringify : A -> string;
  JSON_parse : string -> option A
}.

(** What the service relies on: a value read back from its own
    serialization is the value that was written, and a serialization is
    never the empty string. *)
Class JSONLaws (A : Type) `{JSON A} : Prop := {
  JSON_parse_stringify : forall a : A, JSON_parse (JSON_stringify a) = Some a;
  JSON_stringify_truthy : forall a : A, truthy (JSON_stringify a) = true
}.

(** The clock, the random source and the locale, read at a given instant
    (the [clock] of the world). *)
Class Platform : Type := {
  (** [Date.now().toString(36)] *)
  Date_now_toString36 : nat -> string;
  (** [Math.random().toString(36)] *)
  Math_random_toString36 : nat -> string;
  (** [new Date().toISOString()] *)
  Date_toISOString : nat -> string;
  (** [n.toLocaleString()] *)
  Number_toLocaleString : Q -> string
}.

(** The mutable state the service runs in. *)
Record World : Type := mkWorld {
  localStorage : gmap string string;
  clock : nat
}.

(** [localStorage.getItem(key)]; [None] is [null]. *)
Definition getItem (key : string) (w : World) : option string :=
  localStorage w !! key.

(** [localStorage.setItem(key, value)] *)
Definition setItem (key value : string) (w : World) : World :=
  {| localStorage := <[key := value]> (localStorage w); clock := clock w |}.

(** [localStorage.removeItem(key)] *)
Definition removeItem (key : string) (w : World) : World :=
  {| localStorage := delete key (localStorage w); clock := clock w |}.

(** Advancing the clock after a reading of the platform. *)
Definition tick (w : World) : World :=
  {| localStorage := localStorage w; clock := S (clock w) |}.

(** ** [src/services/auditLogService.ts] *)

Section AuditLogService.

Context `{!JSON (list AuditLogEntry.t)} `{!Platform}.

Definition AUDIT_STORAGE_KEY : string := "tredgate_audit_logs".

Definition generateId (w : World) : string * World :=
  (Date_now_toString36 (clock w)
     ++ substring 2 7 (Math_random_toString36 (clock w)),
   tick w).

(** The [try] block returns [[]] when nothing truthy is stored, and the
    [catch] returns [[]] when [JSON.parse] throws. *)
Definition getAuditLogs (w : World) : list AuditLogEntry.t :=
  match getItem AUDIT_STORAGE_KEY w with
  | None => []
  | Some stored =>
      if negb (truthy stored) then []
      else match JSON_parse stored with
           | Some logs => logs
           | None => []
           end
  end.

Definition saveAuditLogs (logs : list AuditLogEntry.t) (w : World) : World :=
  setItem AUDIT_STORAGE_KEY (JSON_stringify logs) w.

Definition clearAuditLogs (w : World) : World :=
  removeItem AUDIT_STORAGE_KEY w.

Definition createAuditLogEntry
    (actionType : AuditActionType) (loan : LoanPick.t) (description : string)
    (previousStatus newStatus : option LoanStatus)
    (w : World) : AuditLogEntry.t * World :=
  let (id, w1) := generateId w in
  let timestamp := Date_toISOString (clock w1) in
  ({| AuditLogEntry.id := id;
      AuditLogEntry.timestamp := timestamp;
      AuditLogEntry.actionType := actionType;
      AuditLogEntry.loanId := LoanPick.id loan;
      AuditLogEntry.applicantName := LoanPick.applicantName loan;
      AuditLogEntry.amount := LoanPick.amount loan;
      AuditLogEntry.previousStatus := previousStatus;
      AuditLogEntry.newStatus := newStatus;
      AuditLogEntry.description := description |},
   tick w1).

(** [logs.push(entry)] adds [entry] at the end of the loaded array. *)
Definition logAudit (entry : AuditLogEntry.t) (w : World) : World :=
  let logs := getAuditLogs w in
  saveAuditLogs (logs ++ [entry]) w.

Definition logLoanCreated (loan : LoanApplication.t) (w : World) : World :=
  let (entry, w1) :=
    createAuditLogEntry LOAN_CREATED (LoanPick.of_loan loan)
      ("Loan application created for " ++ LoanApplication.applicantName loan
         ++ " with amount $"
         ++ Number_toLocaleString (LoanApplication.amount loan))
      None None w in
  logAudit entry w1.

Definition logManualStatusChange
    (loan : LoanPick.t) (previousStatus newStatus : LoanStatus)
    (w : World) : World :=
  let (entry, w1) :=
    createAuditLogEntry STATUS_CHANGED_MANUAL loan
      ("Loan for " ++ LoanPick.applicantName loan
         ++ " manually changed from " ++ LoanStatus_string previousStatus
         ++ " to " ++ LoanStatus_string newStatus)
      (Some previousStatus) (Some newStatus) w in
  logAudit entry w1.

Definition logAutoDecision
    (loan : LoanPick.t) (previousStatus newStatus : LoanStatus)
    (w : World) : World :=
  let (entry, w1) :=
    createAuditLogEntry STATUS_CHANGED_AUTO loan
      ("Loan for " ++ LoanPick.applicantName loan
         ++ " auto-decided from " ++ LoanStatus_string previousStatus
         ++ " to " ++ LoanStatus_string newStatus)
      (Some previousStatus) (Some newStatus) w in
  logAudit entry w1.

Definition logLoanDeleted (loan : LoanApplication.t) (w : World) : World :=
  let (entry, w1) :=
    createAuditLogEntry LOAN_DELETED (LoanPick.of_loan loan)
      ("Loan application for " ++ LoanApplication.applicantName loan
         ++ " deleted (was "
         ++ LoanStatus_string (LoanApplication.status loan) ++ ")")
      None None w in
  logAudit entry w1.

End AuditLogService.

(** The pure queries of the service. *)

Definition filterByActionType
    (logs : list AuditLogEntry.t) (actionType : AuditActionType)
    : list AuditLogEntry.t :=
  List.filter
    (fun log => AuditActionType_eqb (AuditLogEntry.actionType log) actionType)
    logs.

(** The callback of [searchAuditLogs]'s [filter]. *)
Definition search_hit (normalizedSearch : string) (log : AuditLogEntry.t) : bool :=
  includes normalizedSearch (toLowerCase (AuditLogEntry.description log))
  || includes normalizedSearch (toLowerCase (AuditLogEntry.applicantName log))
  || includes normalizedSearch (toLowerCase (AuditLogEntry.loanId log)).

Definition searchAuditLogs
    (logs : list AuditLogEntry.t) (searchText : string)
    : list AuditLogEntry.t :=
  let normalizedSearch := trim (toLowerCase searchText) in
  if negb (truthy normalizedSearch) then logs
  else List.filter (search_hit normalizedSearch) logs.

(** The optional parameters are options; [if (actionType)] and
    [if (searchText)] test that the argument is given and truthy. *)
Definition filterAndSearchAuditLogs
    (logs : list AuditLogEntry.t)
    (actionType : option AuditActionType) (searchText : option string)
    : list AuditLogEntry.t :=
  let filtered := logs in
  let filtered :=
    match actionType with
    | Some a =>
        if truthy (AuditActionType_string a)
        then filterByActionType filtered a else filtered
    | None => filtered
    end in
  let filtered :=
    match searchText with
    | Some text =>
        if truthy text then searchAuditLogs filtered text else filtered
    | None => filtered
    end in
  filtered.

(** ** Sequences of calls *)

(** One call of the four logging functions. *)
Inductive AuditCall : Type :=
  | CallLoanCreated (loan : LoanApplication.t)
  | CallManualStatusChange (loan : LoanPick.t) (previousStatus newStatus : LoanStatus)
  | CallAutoDecision (loan : LoanPick.t) (previousStatus newStatus : LoanStatus)
  | CallLoanDeleted (loan : LoanApplication.t).

Definition AuditCall_actionType (c : AuditCall) : AuditActionType :=
  match c with
  | CallLoanCreated _ => LOAN_CREATED
  | CallManualStatusChange _ _ _ => STATUS_CHANGED_MANUAL
  | CallAutoDecision _ _ _ => STATUS_CHANGED_AUTO
  | CallLoanDeleted _ => LOAN_DELETED
  end.

Definition AuditCall_loan (c : AuditCall) : LoanPick.t :=
  match c with
  | CallLoanCreated loan | CallLoanDeleted loan => LoanPick.of_loan loan
  | CallManualStatusChange loan _ _ | CallAutoDecision loan _ _ => loan
  end.

(** The entry a call is about: its action type and the snapshot of its
    loan. *)
Definition records (c : AuditCall) (e : AuditLogEntry.t) : Prop :=
  AuditLogEntry.actionType e = AuditCall_actionType c
  /\ AuditLogEntry.loanId e = LoanPick.id (AuditCall_loan c)
  /\ AuditLogEntry.applicantName e = LoanPick.applicantName (AuditCall_loan c)
  /\ AuditLogEntry.amount e = LoanPick.amount (AuditCall_loan c).

Section Calls.

Context `{!JSON (list AuditLogEntry.t)} `{!Platform}.

Definition perform (c : AuditCall) (w : World) : World :=
  match c with
  | CallLoanCreated loan => logLoanCreated loan w
  | CallManualStatusChange loan p n => logManualStatusChange loan p n w
  | CallAutoDecision loan p n => logAutoDecision loan p n w
  | CallLoanDeleted loan => logLoanDeleted loan w
  end.

(** Calls made one after the other, first call first. *)
Definition perform_all (cs : list AuditCall) (w : World) : World :=
  fold_left (fun w c => perform c w) cs w.

Definition logAudit_all (es : list AuditLogEntry.t) (w : World) : World :=
  fold_left (fun w e => logAudit e w) es w.

End Calls.

(** ** The loan store *)

(** The messages of the four validation failures, from the text constants
    of the end-to-end tests ([TEXTS]). *)
Definition ERROR_NAME_REQUIRED : string := "Applicant name is required".
Definition ERROR_AMOUNT_REQUIRED : string := "Amount must be greater than 0".
Definition ERROR_TERM_REQUIRED : string := "Term months must be greater than 0".
Definition ERROR_INTEREST_REQUIRED : string :=
  "Interest rate is required and cannot be negative".

(** Modelled from the spec: the error taxonomy of section 7; the loan
    service that raises these errors is not among the sources. *)
Inductive ValidationError : Type :=
  | NameRequired
  | AmountRequired
  | TermRequired
  | InterestRateRequired.

Definition ValidationError_message (e : ValidationError) : string :=
  match e with
  | NameRequired => ERROR_NAME_REQUIRED
  | AmountRequired => ERROR_AMOUNT_REQUIRED
  | TermRequired => ERROR_TERM_REQUIRED
  | InterestRateRequired => ERROR_INTEREST_REQUIRED
  end.

Inductive Error : Type :=
  | Validation (e : ValidationError)
  | NotFound (id : string).

(** The outcome of an operation that may throw. *)
Inductive Result (A : Type) : Type :=
  | Ok (a : A)
  | Throw (e : Error).
Arguments Ok {A} a.
Arguments Throw {A} e.

(** Modelled from the spec: the input of [create] (section 4.1),
    [{applicantName, amount, termMonths, interestRate}], where the interest
    rate may be missing ("present and >= 0"). *)
Module NewLoan.
Record t : Type := mk {
  applicantName : string;
  amount : Q;
  termMonths : Z;
  interestRate : option Q
}.
End NewLoan.

(** [x > 0] and [x >= 0] on numbers. *)
Definition Q_pos (x : Q) : bool := negb (Qle_bool x 0).
Definition Q_nonneg (x : Q) : bool := Qle_bool 0 x.

Section LoanService.

Context `{!JSON (list AuditLogEntry.t)} `{!JSON (list LoanApplication.t)}
        `{!Platform}.

(** The storage key of the loan list, as the README gives it. *)
Definition LOANS_STORAGE_KEY : string := "tredgate_loans".

(** Modelled from the spec: [load()] of section 4.1 ([getLoans] of the
    absent [loanService.ts]): "if the stored value is missing or fails to
    parse, returns an empty sequence". *)
Definition getLoans (w : World) : list LoanApplication.t :=
  match getItem LOANS_STORAGE_KEY w with
  | None => []
  | Some stored =>
      match JSON_parse stored with
      | Some loans => loans
      | None => []
      end
  end.

(** Modelled from the spec: [save(loans)] of section 4.1, "overwrites the
    persisted list with the given sequence in full". *)
Definition saveLoans (loans : list LoanApplication.t) (w : World) : World :=
  setItem LOANS_STORAGE_KEY (JSON_stringify loans) w.

(** Modelled from the spec: the validation of [create] (section 4.1), in
    the order name, amount, term, interest rate; the first failing check
    is the error. *)
Definition validate (input : NewLoan.t) : option ValidationError :=
  if is_empty (trim (NewLoan.applicantName input)) then Some NameRequired
  else if negb (Q_pos (NewLoan.amount input)) then Some AmountRequired
  else if negb (0 <? NewLoan.termMonths input)%Z then Some TermRequired
  else match NewLoan.interestRate input with
       | None => Some InterestRateRequired
       | Some rate =>
           if negb (Q_nonneg rate) then Some InterestRateRequired else None
       end.

(** Modelled from the spec: [create(input)] of section 4.1
    ([createLoanApplication] of the absent [loanService.ts]). *)
Definition createLoanApplication (input : NewLoan.t) (w : World)
    : Result (LoanApplication.t * World) :=
  match validate input with
  | Some e => Throw (Validation e)
  | None =>
      let (id, w1) := generateId w in
      let loan :=
        {| LoanApplication.id := id;
           LoanApplication.applicantName := trim (NewLoan.applicantName input);
           LoanApplication.amount := NewLoan.amount input;
           LoanApplication.termMonths := NewLoan.termMonths input;
           LoanApplication.interestRate :=
             match NewLoan.interestRate input with
             | Some rate => rate
             | None => 0
             end;
           LoanApplication.status := pending;
           LoanApplication.createdAt := Date_toISOString (clock w1) |} in
      let w2 := tick w1 in
      let w3 := saveLoans (getLoans w2 ++ [loan]) w2 in
      Ok (loan, logLoanCreated loan w3)
  end.

(** Modelled from the spec: the decision rule of [autoDecide]
    (section 4.1), "approve if amount <= 100000 AND termMonths <= 60;
    reject otherwise". *)
Definition autoDecision (loan : LoanApplication.t) : LoanStatus :=
  if Qle_bool (LoanApplication.amount loan) 100000
     && (LoanApplication.termMonths loan <=? 60)%Z
  then approved else rejected.

Definition findLoan (id : string) (loans : list LoanApplication.t)
    : option LoanApplication.t :=
  List.find (fun loan => String.eqb (LoanApplication.id loan) id) loans.

Definition withStatus (st : LoanStatus) (loan : LoanApplication.t)
    : LoanApplication.t :=
  {| LoanApplication.id := LoanApplication.id loan;
     LoanApplication.applicantName := LoanApplication.applicantName loan;
     LoanApplication.amount := LoanApplication.amount loan;
     LoanApplication.termMonths := LoanApplication.termMonths loan;
     LoanApplication.interestRate := LoanApplication.interestRate loan;
     LoanApplication.status := st;
     LoanApplication.createdAt := LoanApplication.createdAt loan |}.

(** The list with the status of the first loan of that id replaced. *)
Fixpoint setStatus (id : string) (st : LoanStatus)
    (loans : list LoanApplication.t) : list LoanApplication.t :=
  match loans with
  | [] => []
  | loan :: rest =>
      if String.eqb (LoanApplication.id loan) id
      then withStatus st loan :: rest
      else loan :: setStatus id st rest
  end.

(** Modelled from the spec: [autoDecide(id)] of section 4.1
    ([autoDecideLoan] of the absent [loanService.ts]): load the entry,
    apply the rule, persist the status, emit the audit event, return the
    status.  An id that is not in the list is reported (section 7). *)
Definition autoDecideLoan (id : string) (w : World)
    : Result (LoanStatus * World) :=
  let loans := getLoans w in
  match findLoan id loans with
  | None => Throw (NotFound id)
  | Some loan =>
      let previousStatus := LoanApplication.status loan in
      let newStatus := autoDecision loan in
      let w1 := saveLoans (setStatus id newStatus loans) w in
      Ok (newStatus,
          logAutoDecision (LoanPick.of_loan loan) previousStatus newStatus w1)
  end.

End LoanService.

(** *** The monthly payment *)

(** The three numbers of a [LoanApplication] that the payment reads, as the
    engine holds them: binary64. *)
Module LoanNumbers.

Record t := mk {
  amount : float;
  termMonths : float;
  interestRate : float
}.

End LoanNumbers.

(** Modelled from the spec: [calculateMonthlyPayment(loan)] of section 4.1,
    "(amount x (1 + interestRate)) / termMonths", in the arithmetic of the
    engine: each operation rounds to the nearest binary64, a division by
    zero gives an infinity or NaN. *)
Definition calculateMonthlyPayment (loan : LoanNumbers.t) : float :=
  ((LoanNumbers.amount loan * (1 + LoanNumbers.interestRate loan))
   / LoanNumbers.termMonths loan)%float.

(** The stand-in the component tests install for it ([tests/App.test.ts],
    [tests/components/LoanList.test.ts]):
    [const total = loan.amount * (1 + loan.interestRate)
     return total / loan.termMonths]. *)
Definition calculateMonthlyPayment_mock (loan : LoanNumbers.t) : float :=
  let total :=
    (LoanNumbers.amount loan * (1 + LoanNumbers.interestRate loan))%float in
  (total / LoanNumbers.termMonths loan)%float.

(** The loan of the tests ([createMockLoan]): 50000 over 24 months at 0.08,
    which in binary64 is the number 0x1.47ae147ae147bp-4. *)
Definition mock_numbers : LoanNumbers.t :=
  LoanNumbers.mk 50000 24 0x1.47ae147ae147bp-4.

(** ** [src/components/LoanList.vue] *)

(** The script of the component: the two refs of the delete dialog, the
    events it emits, and what its template offers for a row. *)
Module LoanList.

(** [defineEmits]: an event and the loan id it carries. *)
Inductive Emit : Type :=
  | EmitApprove (id : string)
  | EmitReject (id : string)
  | EmitAutoDecide (id : string)
  | EmitDelete (id : string).

Definition Emit_id (ev : Emit) : string :=
  match ev with
  | EmitApprove id | EmitReject id | EmitAutoDecide id | EmitDelete id => id
  end.

(** The value of [loanToDelete] when it is not [null]. *)
Record Target : Type := mkTarget {
  id : string;
  applicantName : string
}.

(** The refs [showDeleteModal] and [loanToDelete], and the events emitted
    so far, oldest first. *)
Record State : Type := mkState {
  showDeleteModal : bool;
  loanToDelete : option Target;
  emitted : list Emit
}.

Definition setup : State :=
  {| showDeleteModal := false; loanToDelete := None; emitted := [] |}.

Definition emit (ev : Emit) (st : State) : State :=
  {| showDeleteModal := showDeleteModal st;
     loanToDelete := loanToDelete st;
     emitted := (emitted st ++ [ev])%list |}.

Definition openDeleteModal (id applicantName : string) (st : State) : State :=
  {| showDeleteModal := true;
     loanToDelete := Some (mkTarget id applicantName);
     emitted := emitted st |}.

Definition closeDeleteModal (st : State) : State :=
  {| showDeleteModal := false; loanToDelete := None; emitted := emitted st |}.

Definition confirmDelete (st : State) : State :=
  let st1 :=
    match loanToDelete st with
    | Some target => emit (EmitDelete (id target)) st
    | None => st
    end in
  closeDeleteModal st1.

(** [v-if="showDeleteModal && loanToDelete"] on the dialog. *)
Definition modalShown (st : State) : bool :=
  showDeleteModal st
  && match loanToDelete st with Some _ => true | None => false end.

(** The four buttons of a row. *)
Inductive Button : Type := Approve | Reject | AutoDecide | Delete.

(** [loan.status === 'pending'] *)
Definition isPending (loan : LoanApplication.t) : bool :=
  String.eqb (LoanStatus_string (LoanApplication.status loan)) "pending".

(** Each button has [v-if="loan.status === 'pending'"]. *)
Definition buttonShown (b : Button) (loan : LoanApplication.t) : bool :=
  isPending loan.

(** The dash, [v-if="loan.status !== 'pending'"]. *)
Definition noActionsShown (loan : LoanApplication.t) : bool :=
  negb (isPending loan).

(** The [@click] of a button of the row of [loan]. *)
Definition click (b : Button) (loan : LoanApplication.t) (st : State) : State :=
  match b with
  | Approve => emit (EmitApprove (LoanApplication.id loan)) st
  | Reject => emit (EmitReject (LoanApplication.id loan)) st
  | AutoDecide => emit (EmitAutoDecide (LoanApplication.id loan)) st
  | Delete =>
      openDeleteModal (LoanApplication.id loan)
        (LoanApplication.applicantName loan) st
  end.

(** What a user can do: click a button of a row, or answer the dialog
    ([@confirm], [@cancel]). *)
Inductive Action : Type :=
  | Click (b : Button) (loan : LoanApplication.t)
  | ModalConfirm
  | ModalCancel.

Definition handle (a : Action) (st : State) : State :=
  match a with
  | Click b loan => click b loan st
  | ModalConfirm => confirmDelete st
  | ModalCancel => closeDeleteModal st
  end.

Definition handle_all (acts : list Action) (st : State) : State :=
  fold_left (fun st a => handle a st) acts st.

(** The action is on the page: the row is one of the [loans] of the props
    and its button is rendered, or the dialog is. *)
Definition offered (loans : list LoanApplication.t) (st : State) (a : Action)
    : Prop :=
  match a with
  | Click b loan => In loan loans /\ buttonShown b loan = true
  | ModalConfirm | ModalCancel => modalShown st = true
  end.

(** A step of a session: the loans of the props at that moment, and what
    the user does.  The props are the parent's: between two steps it may
    change them as it likes (it changes the status of a loan after an
    event, it adds and removes loans). *)
Definition Step : Type := (list LoanApplication.t * Action)%type.

Definition run (steps : list Step) (st : State) : State :=
  handle_all (map snd steps) st.

(** Every action of the session is on the page when it is made. *)
Fixpoint offered_steps (st : State) (steps : list Step) : Prop :=
  match steps with
  | [] => True
  | (loans, a) :: rest =>
      offered loans st a /\ offered_steps (handle a st) rest
  end.

(** The button of a row that an event comes from. *)
Definition Emit_button (ev : Emit) : Button :=
  match ev with
  | EmitApprove _ => Approve
  | EmitReject _ => Reject
  | EmitAutoDecide _ => AutoDecide
  | EmitDelete _ => Delete
  end.

Definition is_delete (ev : Emit) : bool :=
  match ev with EmitDelete _ => true | _ => false end.

Definition is_confirm (a : Action) : bool :=
  match a with ModalConfirm => true | _ => false end.

Definition is_delete_click (a : Action) : bool :=
  match a with Click Delete _ => true | _ => false end.

End LoanList.

(** ** [src/components/DeleteModal.vue] *)

Module DeleteModal.

(** [defineEmits] *)
Inductive Emit : Type := confirm | cancel.

(** What can be clicked: the overlay beside the dialog ([@click.self]) and
    the two buttons. *)
Inductive Control : Type := Overlay | CancelButton | DeleteButton.

Definition click (c : Control) : Emit :=
  match c with
  | Overlay => cancel
  | CancelButton => cancel
  | DeleteButton => confirm
  end.

End DeleteModal.

(** The dialog in the list: [@confirm="confirmDelete"] and
    [@cancel="closeDeleteModal"]. *)
Definition dialog_click (c : DeleteModal.Control) (st : LoanList.State)
    : LoanList.State :=
  match DeleteModal.click c with
  | DeleteModal.confirm => LoanList.confirmDelete st
  | DeleteModal.cancel => LoanList.closeDeleteModal st
  end.

(** ** [src/components/AuditLogViewer.vue] *)

(** [Array.prototype.sort] with a comparator.  The sort is stable, and for
    a comparator that orders the elements consistently the stable sort of
    a list is one list, whatever the algorithm; it is computed here by
    insertion, the elements taken from the last to the first.  [compareFn
    a b < 0] puts [a] before [b].  For a comparator that is not consistent
    ECMAScript leaves the order to the implementation: the list computed
    here is then a rearrangement of the elements, and nothing is claimed
    of its order. *)
Section ArraySort.

Context {A : Type} (compareFn : A -> A -> Z).

Fixpoint sort_insert (x : A) (sorted : list A) : list A :=
  match sorted with
  | [] => [x]
  | y :: rest =>
      if (compareFn y x <? 0)%Z then y :: sort_insert x rest
      else x :: y :: rest
  end.

Fixpoint Array_sort (l : list A) : list A :=
  match l with
  | [] => []
  | x :: rest => sort_insert x (Array_sort rest)
  end.

End ArraySort.

(** What [sort] reads from a comparator whose result may be NaN ([None]):
    "if v is NaN, return +0". *)
Definition SortCompare {A : Type} (compareFn : A -> A -> option Z) (a b : A)
    : Z :=
  match compareFn a b with
  | Some v => v
  | None => 0%Z
  end.

Module AuditLogViewer.

(** The refs of the component; [None] is the option "All Actions", whose
    value is the empty string. *)
Record State : Type := mkState {
  allLogs : list AuditLogEntry.t;
  searchText : string;
  selectedActionType : option AuditActionType
}.

Definition setup : State :=
  {| allLogs := []; searchText := ""; selectedActionType := None |}.

(** [selectedActionType.value || undefined] *)
Definition actionType_or_undefined (selected : option AuditActionType)
    : option AuditActionType :=
  match selected with
  | Some a => if truthy (AuditActionType_string a) then Some a else None
  | None => None
  end.

(** [searchText.value || undefined] *)
Definition text_or_undefined (text : string) : option string :=
  if truthy text then Some text else None.

Definition formatActionType (a : AuditActionType) : string :=
  match a with
  | LOAN_CREATED => "Created"
  | STATUS_CHANGED_MANUAL => "Manual Change"
  | STATUS_CHANGED_AUTO => "Auto-Decision"
  | LOAN_DELETED => "Deleted"
  end.

Definition getActionTypeClass (a : AuditActionType) : string :=
  match a with
  | LOAN_CREATED => "action-created"
  | STATUS_CHANGED_MANUAL => "action-manual"
  | STATUS_CHANGED_AUTO => "action-auto"
  | LOAN_DELETED => "action-deleted"
  end.

(** The cell of the loan id: [log.loanId.substring(0, 8)] and three dots. *)
Definition loanIdCell (log : AuditLogEntry.t) : string :=
  substring 0 8 (AuditLogEntry.loanId log) ++ "...".

(** What the template puts under the filters. *)
Inductive Body : Type :=
  | NoEntriesYet
  | NoMatchingEntries
  | Table (rows : list AuditLogEntry.t).

Section Viewer.

Context `{!JSON (list AuditLogEntry.t)}.

(** [new Date(s).getTime()]: the milliseconds since the epoch when the
    string is a date (the time stamps the service writes are), and NaN,
    here [None], when it is not. *)
Variable Date_getTime : string -> option Z.

(** The comparator of [filteredLogs],
    [new Date(b.timestamp).getTime() - new Date(a.timestamp).getTime()]:
    a difference with NaN is NaN.  With a time stamp that is not a date
    among the entries the comparator is not consistent. *)
Definition newestFirst (a b : AuditLogEntry.t) : option Z :=
  match Date_getTime (AuditLogEntry.timestamp b),
        Date_getTime (AuditLogEntry.timestamp a) with
  | Some tb, Some ta => Some (tb - ta)%Z
  | _, _ => None
  end.

(** [filterAndSearchAuditLogs] returns the array it was given, not a copy,
    when it applies no step or only a search whose text trims to nothing. *)
Definition returns_its_argument
    (actionType : option AuditActionType) (text : option string) : bool :=
  match actionType with
  | Some a => negb (truthy (AuditActionType_string a))
  | None => true
  end
  && match text with
     | Some t => negb (truthy t) || negb (truthy (trim (toLowerCase t)))
     | None => true
     end.

(** The computed [filteredLogs].  [sort] sorts in place the array it is
    called on: when that array is [allLogs.value] itself, the ref holds the
    sorted list afterwards.  The result is the rows and the state left. *)
Definition filteredLogs (st : State) : list AuditLogEntry.t * State :=
  let actionType := actionType_or_undefined (selectedActionType st) in
  let text := text_or_undefined (searchText st) in
  let rows :=
    Array_sort (SortCompare newestFirst)
      (filterAndSearchAuditLogs (allLogs st) actionType text) in
  (rows,
   if returns_its_argument actionType text
   then {| allLogs := rows;
           searchText := searchText st;
           selectedActionType := selectedActionType st |}
   else st).

Definition refreshLogs (w : World) (st : State) : State :=
  {| allLogs := getAuditLogs w;
     searchText := searchText st;
     selectedActionType := selectedActionType st |}.

(** [v-model] on the search box and on the select. *)
Definition setSearchText (text : string) (st : State) : State :=
  {| allLogs := allLogs st;
     searchText := text;
     selectedActionType := selectedActionType st |}.

Definition setSelectedActionType (selected : option AuditActionType)
    (st : State) : State :=
  {| allLogs := allLogs st;
     searchText := searchText st;
     selectedActionType := selected |}.

(** The template: the empty states and the table. *)
Definition body (st : State) : Body :=
  let rows := fst (filteredLogs st) in
  if (length rows =? 0)%nat then
    if (length (allLogs st) =? 0)%nat then NoEntriesYet else NoMatchingEntries
  else Table rows.

End Viewer.

End AuditLogViewer.

(** The times of the three time stamps of the tests, in milliseconds since
    the epoch, as [new Date(s).getTime()] gives them.  The examples read no
    other time stamp, and the table has no other date. *)
Definition test_getTime (s : string) : option Z :=
  if String.eqb s "2024-01-01T00:00:00.000Z" then Some 1704067200000%Z
  else if String.eqb s "2024-01-02T00:00:00.000Z" then Some 1704153600000%Z
  else if String.eqb s "2024-01-03T00:00:00.000Z" then Some 1704240000000%Z
  else None.


(** ** The vocabulary of the specification *)

(** "The text occurs case-insensitively as a substring of the field". *)
Definition occurs_ci (text field : string) : bool :=
  includes (toLowerCase text) (toLowerCase field).

(** An entry one of whose three searched fields contains the text. *)
Definition entry_contains (text : string) (log : AuditLogEntry.t) : bool :=
  occurs_ci text (AuditLogEntry.description log)
  || occurs_ci text (AuditLogEntry.applicantName log)
  || occurs_ci text (AuditLogEntry.loanId log).

(** The search as the specification words it: no filter for an empty or
    whitespace-only text, otherwise the entries that contain the text. *)
Definition search_by_text (logs : list AuditLogEntry.t) (text : string)
    : list AuditLogEntry.t :=
  if whitespace_only text then logs
  else List.filter (entry_contains text) logs.

(** The search with the text trimmed first. *)
Definition search_by_trimmed_text (logs : list AuditLogEntry.t) (text : string)
    : list AuditLogEntry.t :=
  if whitespace_only text then logs
  else List.filter (entry_contains (trim text)) logs.

(** The criterion of [searchAuditLogs] on one entry. *)
Definition matches_search (text : string) (log : AuditLogEntry.t) : bool :=
  whitespace_only text || search_hit (trim (toLowerCase text)) log.

(** The four checks of [create], as the specification lists them. *)
Definition name_given (input : NewLoan.t) : Prop :=
  trim (NewLoan.applicantName input) <> "".
Definition amount_positive (input : NewLoan.t) : Prop :=
  (0 < NewLoan.amount input)%Q.
Definition term_positive (input : NewLoan.t) : Prop :=
  (0 < NewLoan.termMonths input)%Z.
Definition rate_valid (input : NewLoan.t) : Prop :=
  exists rate : Q, NewLoan.interestRate input = Some rate /\ (0 <= rate)%Q.

(** A string that does not begin with a stripped code unit. *)
Definition clean_start (s : string) : Prop :=
  match s with
  | EmptyString => True
  | String c _ => is_whitespace c = false
  end.

(** ** The data of the tests *)

(** The two entries of the search tests ([tests/auditLogService.test.ts]). *)
Definition entry_john : AuditLogEntry.t :=
  {| AuditLogEntry.id := "1";
     AuditLogEntry.timestamp := "2024-01-01T00:00:00.000Z";
     AuditLogEntry.actionType := LOAN_CREATED;
     AuditLogEntry.loanId := "abc123";
     AuditLogEntry.applicantName := "John Smith";
     AuditLogEntry.amount := 10000;
     AuditLogEntry.previousStatus := None;
     AuditLogEntry.newStatus := None;
     AuditLogEntry.description := "Loan created for John Smith" |}.

Definition entry_jane : AuditLogEntry.t :=
  {| AuditLogEntry.id := "2";
     AuditLogEntry.timestamp := "2024-01-02T00:00:00.000Z";
     AuditLogEntry.actionType := LOAN_CREATED;
     AuditLogEntry.loanId := "def456";
     AuditLogEntry.applicantName := "Jane Doe";
     AuditLogEntry.amount := 20000;
     AuditLogEntry.previousStatus := None;
     AuditLogEntry.newStatus := None;
     AuditLogEntry.description := "Loan created for Jane Doe" |}.

Definition search_logs : list AuditLogEntry.t := [entry_john; entry_jane].

(** The three entries of the tests of [filterAndSearchAuditLogs]. *)
Definition log_1 : AuditLogEntry.t :=
  {| AuditLogEntry.id := "1";
     AuditLogEntry.timestamp := "2024-01-01T00:00:00.000Z";
     AuditLogEntry.actionType := LOAN_CREATED;
     AuditLogEntry.loanId := "loan1";
     AuditLogEntry.applicantName := "John Smith";
     AuditLogEntry.amount := 10000;
     AuditLogEntry.previousStatus := None;
     AuditLogEntry.newStatus := None;
     AuditLogEntry.description := "Created" |}.

Definition log_2 : AuditLogEntry.t :=
  {| AuditLogEntry.id := "2";
     AuditLogEntry.timestamp := "2024-01-02T00:00:00.000Z";
     AuditLogEntry.actionType := STATUS_CHANGED_MANUAL;
     AuditLogEntry.loanId := "loan1";
     AuditLogEntry.applicantName := "John Smith";
     AuditLogEntry.amount := 10000;
     AuditLogEntry.previousStatus := Some pending;
     AuditLogEntry.newStatus := Some approved;
     AuditLogEntry.description := "Changed" |}.

Definition log_3 : AuditLogEntry.t :=
  {| AuditLogEntry.id := "3";
     AuditLogEntry.timestamp := "2024-01-03T00:00:00.000Z";
     AuditLogEntry.actionType := LOAN_CREATED;
     AuditLogEntry.loanId := "loan2";
     AuditLogEntry.applicantName := "Jane Doe";
     AuditLogEntry.amount := 20000;
     AuditLogEntry.previousStatus := None;
     AuditLogEntry.newStatus := None;
     AuditLogEntry.description := "Created" |}.

Definition test_logs : list AuditLogEntry.t := [log_1; log_2; log_3].

(** The loan of the component tests ([createMockLoan]), with the amount and
    the term as parameters. *)
Definition mock_loan (amount : Q) (termMonths : Z) : LoanApplication.t :=
  {| LoanApplication.id := "test-id";
     LoanApplication.applicantName := "John Doe";
     LoanApplication.amount := amount;
     LoanApplication.termMonths := termMonths;
     LoanApplication.interestRate := 0.08;
     LoanApplication.status := pending;
     LoanApplication.createdAt := "2024-01-15T10:30:00.000Z" |}.

(** A form submitted with nothing filled in. *)
Definition blank_input : NewLoan.t :=
  {| NewLoan.applicantName := "";
     NewLoan.amount := 0;
     NewLoan.termMonths := 0;
     NewLoan.interestRate := None |}.

Definition empty_world : World := {| localStorage := ∅; clock := 0 |}.

(** The store of the test "returns empty array when localStorage contains
    invalid JSON". *)
Definition corrupt_world : World :=
  setItem AUDIT_STORAGE_KEY "invalid json{{{" empty_world.

(** ** A reference platform

    An instance of the platform interfaces on which the model runs: the
    serialization of a value is the binary numeral of its code in stdpp's
    enumeration of its type.  It shows that the laws of [JSONLaws] can be
    met, and it is the platform of the closed examples below. *)

Module Reference.

Fixpoint bits_of_positive (p : positive) : string :=
  match p with
  | xH => "1"
  | xO p' => String "0" (bits_of_positive p')
  | xI p' => String "1" (bits_of_positive p')
  end.

Fixpoint positive_of_bits (s : string) : option positive :=
  match s with
  | EmptyString => None
  | String c s' =>
      if Ascii.eqb c "0" then
        match positive_of_bits s' with
        | Some p => Some (xO p)
        | None => None
        end
      else if Ascii.eqb c "1" then
        match s' with
        | EmptyString => Some xH
        | String _ _ =>
            match positive_of_bits s' with
            | Some p => Some (xI p)
            | None => None
            end
        end
      else None
  end.

Definition json `{Countable A} : JSON A :=
  {| JSON_stringify := fun a => bits_of_positive (encode a);
     JSON_parse := fun s =>
       match positive_of_bits s with
       | Some p => decode p
       | None => None
       end |}.

Definition platform : Platform :=
  {| Date_now_toString36 := fun n => "lr" ++ pretty n;
     Math_random_toString36 := fun n => "0.k3x9" ++ pretty n ++ "qz7";
     Date_toISOString := fun n => "2024-01-15T10:30:00." ++ pretty n ++ "Z";
     Number_toLocaleString := fun q => pretty (Qnum q / Zpos (Qden q))%Z |}.

Definition LoanStatus_code (s : LoanStatus) : nat :=
  match s with pending => 0 | approved => 1 | rejected => 2 end.

Definition LoanStatus_of_code (n : nat) : LoanStatus :=
  match n with 0 => pending | 1 => approved | _ => rejected end.

Definition AuditActionType_code (a : AuditActionType) : nat :=
  match a with
  | LOAN_CREATED => 0
  | STATUS_CHANGED_MANUAL => 1
  | STATUS_CHANGED_AUTO => 2
  | LOAN_DELETED => 3
  end.

Definition AuditActionType_of_code (n : nat) : AuditActionType :=
  match n with
  | 0 => LOAN_CREATED
  | 1 => STATUS_CHANGED_MANUAL
  | 2 => STATUS_CHANGED_AUTO
  | _ => LOAN_DELETED
  end.

Definition Q_code (q : Q) : Z * positive := (Qnum q, Qden q).
Definition Q_of_code (c : Z * positive) : Q := Qmake (fst c) (snd c).

Definition AuditLogEntry_code (e : AuditLogEntry.t) :=
  (AuditLogEntry.id e, AuditLogEntry.timestamp e,
   AuditActionType_code (AuditLogEntry.actionType e),
   AuditLogEntry.loanId e, AuditLogEntry.applicantName e,
   Q_code (AuditLogEntry.amount e),
   option_map LoanStatus_code (AuditLogEntry.previousStatus e),
   option_map LoanStatus_code (AuditLogEntry.newStatus e),
   AuditLogEntry.description e).

Definition AuditLogEntry_of_code
    (c : string * string * nat * string * string * (Z * positive)
         * option nat * option nat * string) : AuditLogEntry.t :=
  let '(id, ts, a, lid, name, amt, prev, new, desc) := c in
  {| AuditLogEntry.id := id;
     AuditLogEntry.timestamp := ts;
     AuditLogEntry.actionType := AuditActionType_of_code a;
     AuditLogEntry.loanId := lid;
     AuditLogEntry.applicantName := name;
     AuditLogEntry.amount := Q_of_code amt;
     AuditLogEntry.previousStatus := option_map LoanStatus_of_code prev;
     AuditLogEntry.newStatus := option_map LoanStatus_of_code new;
     AuditLogEntry.description := desc |}.

Definition LoanApplication_code (l : LoanApplication.t) :=
  (LoanApplication.id l, LoanApplication.applicantName l,
   Q_code (LoanApplication.amount l), LoanApplication.termMonths l,
   Q_code (LoanApplication.interestRate l),
   LoanStatus_code (LoanApplication.status l),
   LoanApplication.createdAt l).

Definition LoanApplication_of_code
    (c : string * string * (Z * positive) * Z * (Z * positive) * nat * string)
    : LoanApplication.t :=
  let '(id, name, amt, term, rate, st, created) := c in
  {| LoanApplication.id := id;
     LoanApplication.applicantName := name;
     LoanApplication.amount := Q_of_code amt;
     LoanApplication.termMonths := term;
     LoanApplication.interestRate := Q_of_code rate;
     LoanApplication.status := LoanStatus_of_code st;
     LoanApplication.createdAt := created |}.

Lemma AuditLogEntry_code_inv (e : AuditLogEntry.t) :
  AuditLogEntry_of_code (AuditLogEntry_code e) = e.
Proof.
  destruct e as [i t a l n [qn qd] [[]|] [[]|] d]; destruct a; reflexivity.
Qed.

Lemma LoanApplication_code_inv (l : LoanApplication.t) :
  LoanApplication_of_code (LoanApplication_code l) = l.
Proof. destruct l as [i n [an ad] t [rn rd] [] c]; reflexivity. Qed.

#[export] Instance AuditLogEntry_eq_dec : EqDecision AuditLogEntry.t.
Proof.
  intros x y.
  destruct (decide (AuditLogEntry_code x = AuditLogEntry_code y)) as [E|N].
  - left. rewrite <- (AuditLogEntry_code_inv x), <- (AuditLogEntry_code_inv y).
    now rewrite E.
  - right. intros ->. now apply N.
Defined.

#[export] Instance LoanApplication_eq_dec : EqDecision LoanApplication.t.
Proof.
  intros x y.
  destruct (decide (LoanApplication_code x = LoanApplication_code y)) as [E|N].
  - left.
    rewrite <- (LoanApplication_code_inv x), <- (LoanApplication_code_inv y).
    now rewrite E.
  - right. intros ->. now apply N.
Defined.

#[export] Instance AuditLogEntry_countable : Countable AuditLogEntry.t :=
  inj_countable' AuditLogEntry_code AuditLogEntry_of_code
    AuditLogEntry_code_inv.

#[export] Instance LoanApplication_countable : Countable LoanApplication.t :=
  inj_countable' LoanApplication_code LoanApplication_of_code
    LoanApplication_code_inv.

Definition json_logs : JSON (list AuditLogEntry.t) := json.
Definition json_loans : JSON (list LoanApplication.t) := json.

End Reference.

(** A store that holds one loan. *)
Definition world_with (loan : LoanApplication.t) : World :=
  @saveLoans Reference.json_loans [loan] empty_world.

(** What [autoDecideLoan] leaves behind: the status it returns, the status
    stored for the loan, and the audit entry of the decision. *)
Definition autoDecide_outcome (loan : LoanApplication.t)
    : option (LoanStatus * list LoanStatus
              * list (AuditActionType * option LoanStatus * option LoanStatus)) :=
  match @autoDecideLoan Reference.json_logs Reference.json_loans
          Reference.platform (LoanApplication.id loan) (world_with loan) with
  | Ok (st, w') =>
      Some (st,
            List.map LoanApplication.status (@getLoans Reference.json_loans w'),
            List.map (fun e => (AuditLogEntry.actionType e,
                                AuditLogEntry.previousStatus e,
                                AuditLogEntry.newStatus e))
              (@getAuditLogs Reference.json_logs w'))
  | Throw _ => None
  end.

(** A valid input creates a pending loan, stores it and logs the creation. *)
Definition create_outcome (input : NewLoan.t)
    : Result (string * LoanStatus * list string * list AuditActionType) :=
  match @createLoanApplication Reference.json_logs Reference.json_loans
          Reference.platform input empty_world with
  | Ok (loan, w') =>
      Ok (LoanApplication.applicantName loan, LoanApplication.status loan,
          List.map LoanApplication.applicantName
            (@getLoans Reference.json_loans w'),
          List.map AuditLogEntry.actionType
            (@getAuditLogs Reference.json_logs w'))
  | Throw e => Throw e
  end.

(** ** The vocabulary of the further properties *)

(** The test [filterAndSearchAuditLogs] makes on one entry. *)
Definition passes (actionType : option AuditActionType) (text : option string)
    (log : AuditLogEntry.t) : bool :=
  match actionType with
  | Some a => AuditActionType_eqb (AuditLogEntry.actionType log) a
  | None => true
  end
  && match text with
     | Some t => matches_search t log
     | None => true
     end.

(** The entries that pass the filter and the search of a state of the
    viewer. *)
Definition selected (st : AuditLogViewer.State) : list AuditLogEntry.t :=
  filterAndSearchAuditLogs (AuditLogViewer.allLogs st)
    (AuditLogViewer.actionType_or_undefined
       (AuditLogViewer.selectedActionType st))
    (AuditLogViewer.text_or_undefined (AuditLogViewer.searchText st)).

(** An order by keys, the larger key first. *)
Definition larger_first {A : Type} (key : A -> Z) (a b : A) : Prop :=
  (key b <= key a)%Z.

(** The time of an entry, as the comparator of the viewer reads it: a
    number, or NaN ([None]) when the time stamp is not a date. *)
Definition time_of (Date_getTime : string -> option Z) (log : AuditLogEntry.t)
    : option Z :=
  Date_getTime (AuditLogEntry.timestamp log).

(** Every time stamp of the entries is a date. *)
Definition all_dates (Date_getTime : string -> option Z)
    (logs : list AuditLogEntry.t) : Prop :=
  Forall (fun log => time_of Date_getTime log <> None) logs.

(** Both entries have a time, and [a] is not older than [b]. *)
Definition newer_first (Date_getTime : string -> option Z)
    (a b : AuditLogEntry.t) : Prop :=
  exists ta tb : Z,
    time_of Date_getTime a = Some ta
    /\ time_of Date_getTime b = Some tb
    /\ (tb <= ta)%Z.

(** Both entries have a time, and [a] was written before [b]. *)
Definition written_before (Date_getTime : string -> option Z)
    (a b : AuditLogEntry.t) : Prop :=
  exists ta tb : Z,
    time_of Date_getTime a = Some ta
    /\ time_of Date_getTime b = Some tb
    /\ (ta < tb)%Z.

(** The time of an entry that has one, for the proofs. *)
Definition time_key (Date_getTime : string -> option Z) (log : AuditLogEntry.t)
    : Z :=
  match time_of Date_getTime log with
  | Some t => t
  | None => 0%Z
  end.

(** The dialog of the list is shown exactly when a loan waits to be
    deleted. *)
Definition modal_consistent (st : LoanList.State) : Prop :=
  LoanList.showDeleteModal st = true <-> LoanList.loanToDelete st <> None.

(** The session has a click on button [b] in the row of a loan with this
    id that was among the props, and pending, when it was clicked. *)
Definition clicked_when_pending (steps : list LoanList.Step)
    (b : LoanList.Button) (id : string) : Prop :=
  exists (loans : list LoanApplication.t) (loan : LoanApplication.t),
    In (loans, LoanList.Click b loan) steps
    /\ In loan loans
    /\ LoanApplication.status loan = pending
    /\ LoanApplication.id loan = id.

(** A loan that is deleted although it is pending no more: the user opens
    the dialog for a pending loan, approves the loan while the dialog is
    open, and confirms once the parent has changed the status. *)
Definition delete_after_approve : list LoanList.Step :=
  [ ([mock_loan 50000 24], LoanList.Click LoanList.Delete (mock_loan 50000 24));
    ([mock_loan 50000 24], LoanList.Click LoanList.Approve (mock_loan 50000 24));
    (setStatus "test-id" approved [mock_loan 50000 24], LoanList.ModalConfirm) ].

(** The [delete] events emitted so far, and whether a loan waits in the
    dialog. *)
Definition deletes (st : LoanList.State) : nat :=
  length (List.filter LoanList.is_delete (LoanList.emitted st)).

Definition waiting (st : LoanList.State) : nat :=
  match LoanList.loanToDelete st with Some _ => 1 | None => 0 end.

(** The viewer over the three entries of the tests, nothing selected. *)
Definition viewer_of_tests : AuditLogViewer.State :=
  {| AuditLogViewer.allLogs := test_logs;
     AuditLogViewer.searchText := "";
     AuditLogViewer.selectedActionType := None |}.


(** The comparator of the viewer on entries whose time stamps are dates:
    the difference of the two times. *)
Definition newestFirst_dates (Date_getTime : string -> option Z)
    (a b : AuditLogEntry.t) : Z :=
  (time_key Date_getTime b - time_key Date_getTime a)%Z.

(** * Properties *)

(** ** Strings *)

Lemma is_empty_true (s : string) : is_empty s = true <-> s = "".
Proof. destruct s; simpl; split; congruence. Qed.

Lemma truthy_false (s : string) : truthy s = false <-> s = "".
Proof.
  unfold truthy. rewrite negb_false_iff. apply is_empty_true.
Qed.

Lemma lower_char_whitespace (c : ascii) :
  is_whitespace (lower_char c) = is_whitespace c.
Proof. destruct c as [[] [] [] [] [] [] [] []]; reflexivity. Qed.

Lemma toLowerCase_is_empty (s : string) :
  is_empty (toLowerCase s) = is_empty s.
Proof. destruct s; reflexivity. Qed.

Lemma toLowerCase_trimStart (s : string) :
  toLowerCase (trimStart s) = trimStart (toLowerCase s).
Proof.
  induction s as [|c s IH]; simpl; [reflexivity|].
  rewrite lower_char_whitespace.
  destruct (is_whitespace c); [exact IH | reflexivity].
Qed.

Lemma toLowerCase_trimEnd (s : string) :
  toLowerCase (trimEnd s) = trimEnd (toLowerCase s).
Proof.
  induction s as [|c s IH]; simpl; [reflexivity|].
  rewrite lower_char_whitespace, <- IH, toLowerCase_is_empty.
  destruct (is_whitespace c && is_empty (trimEnd s)); reflexivity.
Qed.

Lemma toLowerCase_trim (s : string) :
  toLowerCase (trim s) = trim (toLowerCase s).
Proof.
  unfold trim. now rewrite toLowerCase_trimEnd, toLowerCase_trimStart.
Qed.

Lemma trimEnd_idempotent (s : string) : trimEnd (trimEnd s) = trimEnd s.
Proof.
  induction s as [|c s IH]; simpl; [reflexivity|].
  destruct (is_whitespace c && is_empty (trimEnd s)) eqn:E; simpl.
  - reflexivity.
  - now rewrite IH, E.
Qed.

Lemma trimStart_clean (s : string) : clean_start (trimStart s).
Proof.
  induction s as [|c s IH]; simpl; [exact I|].
  destruct (is_whitespace c) eqn:E; [exact IH | exact E].
Qed.

Lemma trimStart_of_clean (s : string) : clean_start s -> trimStart s = s.
Proof. destruct s as [|c s]; simpl; [reflexivity|]. now intros ->. Qed.

Lemma trimEnd_clean (s : string) : clean_start s -> clean_start (trimEnd s).
Proof.
  destruct s as [|c s]; simpl; [exact id|]. intros E. now rewrite E.
Qed.

Lemma trim_idempotent (s : string) : trim (trim s) = trim s.
Proof.
  unfold trim.
  rewrite (trimStart_of_clean (trimEnd (trimStart s))).
  - apply trimEnd_idempotent.
  - apply trimEnd_clean, trimStart_clean.
Qed.

Lemma trimEnd_whitespace_only (s : string) :
  is_empty (trimEnd s) = whitespace_only s.
Proof.
  induction s as [|c s IH]; simpl; [reflexivity|].
  rewrite IH. destruct (is_whitespace c), (whitespace_only s); reflexivity.
Qed.

Lemma trimStart_whitespace_only (s : string) :
  whitespace_only (trimStart s) = whitespace_only s.
Proof.
  induction s as [|c s IH]; simpl; [reflexivity|].
  destruct (is_whitespace c) eqn:E; simpl; [exact IH|].
  now rewrite E.
Qed.

(** [trim] leaves nothing exactly of the empty and the whitespace-only
    strings. *)
Lemma trim_whitespace_only (s : string) :
  is_empty (trim s) = whitespace_only s.
Proof.
  unfold trim. now rewrite trimEnd_whitespace_only, trimStart_whitespace_only.
Qed.

Lemma toLowerCase_whitespace_only (s : string) :
  whitespace_only (toLowerCase s) = whitespace_only s.
Proof.
  induction s as [|c s IH]; simpl; [reflexivity|].
  now rewrite lower_char_whitespace, IH.
Qed.

(** [startsWith] and [includes] decide "is a prefix of" and "occurs in". *)
Lemma startsWith_spec (needle hay : string) :
  startsWith needle hay = true <-> exists rest, hay = needle ++ rest.
Proof.
  revert hay. induction needle as [|a n IH]; intros hay; simpl.
  - split; [intros _; now exists hay | reflexivity].
  - destruct hay as [|b h].
    + split; [discriminate | intros [rest E]; discriminate].
    + rewrite andb_true_iff, Ascii.eqb_eq, IH. split.
      * intros [-> [rest ->]]. now exists rest.
      * intros [rest E]. injection E as -> ->. split; [reflexivity|now exists rest].
Qed.

Lemma includes_spec (needle hay : string) :
  includes needle hay = true
  <-> exists before after, hay = before ++ needle ++ after.
Proof.
  induction hay as [|b h IH].
  - simpl. rewrite orb_false_r, startsWith_spec. split.
    + intros [rest E]. now exists "", rest.
    + intros [[|c before] [after E]]; [now exists after | discriminate].
  - cbn [includes]. rewrite orb_true_iff, startsWith_spec, IH. split.
    + intros [[rest E] | [before [after E]]].
      * now exists "", rest.
      * exists (String b before), after. simpl. now rewrite E.
    + intros [[|c before] [after E]].
      * left. now exists after.
      * right. injection E as -> ->. now exists before, after.
Qed.

Example toLowerCase_JOHN : toLowerCase "JOHN Smith" = "john smith".
Proof. reflexivity. Qed.

Example trim_padded : trim "  john	 " = "john".
Proof. reflexivity. Qed.

Example includes_john : includes "john" "loan created for john smith" = true.
Proof. reflexivity. Qed.

Example includes_missing : includes "jane" "john smith" = false.
Proof. reflexivity. Qed.

(** ** Searching and filtering the audit log *)

Example search_JOHN : searchAuditLogs search_logs "JOHN" = [entry_john].
Proof. reflexivity. Qed.

Example search_loanId : searchAuditLogs search_logs "def456" = [entry_jane].
Proof. reflexivity. Qed.

Example search_empty : searchAuditLogs search_logs "" = search_logs.
Proof. reflexivity. Qed.

Lemma occurs_ci_spec (text field : string) :
  occurs_ci text field = true
  <-> exists before after,
        toLowerCase field = before ++ toLowerCase text ++ after.
Proof. apply includes_spec. Qed.

Lemma normalized_truthy (text : string) :
  negb (truthy (trim (toLowerCase text))) = whitespace_only text.
Proof.
  unfold truthy. rewrite negb_involutive, trim_whitespace_only.
  apply toLowerCase_whitespace_only.
Qed.

Lemma search_hit_entry_contains (text : string) (log : AuditLogEntry.t) :
  search_hit (trim (toLowerCase text)) log = entry_contains (trim text) log.
Proof.
  unfold search_hit, entry_contains, occurs_ci. now rewrite toLowerCase_trim.
Qed.

(** C4, as the specification states it, fails on a padded query: the text
    [" john "] occurs in no field of the first entry of the tests (applicant
    "John Smith", description "Created", loan id "loan1"), and the search
    returns that entry. *)
Lemma searchAuditLogs_padded_counterexample :
  entry_contains " john " log_1 = false
  /\ search_by_text [log_1] " john " = []
  /\ searchAuditLogs [log_1] " john " = [log_1]
  /\ searchAuditLogs [log_1] " john " <> search_by_text [log_1] " john ".
Proof.
  split; [reflexivity|]. split; [reflexivity|]. split; [reflexivity|].
  intros H. vm_compute in H. discriminate H.
Qed.

(** C4 (amended): for every list of audit entries and every search text,
    [searchAuditLogs] returns the whole list unchanged when the text is
    empty or whitespace-only, and otherwise keeps, in order, exactly the
    entries where the text with its leading and trailing whitespace removed
    occurs case-insensitively as a substring of the description, the
    applicant name or the loan id. *)
Theorem searchAuditLogs_trimmed_substring
    (logs : list AuditLogEntry.t) (text : string) :
  searchAuditLogs logs text = search_by_trimmed_text logs text
  /\ (whitespace_only text = true -> searchAuditLogs logs text = logs)
  /\ (whitespace_only text = false ->
      forall log : AuditLogEntry.t,
        In log (searchAuditLogs logs text)
        <-> In log logs
            /\ exists field before after,
                 In field [AuditLogEntry.description log;
                           AuditLogEntry.applicantName log;
                           AuditLogEntry.loanId log]
                 /\ toLowerCase field
                    = before ++ toLowerCase (trim text) ++ after).
Proof.
  assert (E : searchAuditLogs logs text = search_by_trimmed_text logs text).
  { unfold searchAuditLogs, search_by_trimmed_text.
    rewrite normalized_truthy.
    destruct (whitespace_only text); [reflexivity|].
    apply List.filter_ext. intros log. apply search_hit_entry_contains. }
  split; [exact E|]. rewrite E. unfold search_by_trimmed_text.
  split; intros W; rewrite W; [reflexivity|].
  intros log. rewrite List.filter_In. unfold entry_contains.
  rewrite !orb_true_iff, !occurs_ci_spec.
  split; intros [Hin H]; (split; [exact Hin|]).
  - destruct H as [[(b & a & H) | (b & a & H)] | (b & a & H)];
      eexists _, b, a; (split; [|exact H]); simpl; auto.
  - destruct H as (field & b & a & Hf & H). simpl in Hf.
    destruct Hf as [<- | [<- | [<- | []]]]; eauto.
Qed.

(** C10: [searchAuditLogs] ignores leading and trailing whitespace in the
    query: for every list of entries and every search string [s],
    searching for [s] and searching for [trim s] return the same result; the
    padded query [" john "] returns what ["john"] returns on the entries of
    the tests, although no field of them contains the padded string. *)
Theorem searchAuditLogs_ignores_padding
    (logs : list AuditLogEntry.t) (s : string) :
  searchAuditLogs logs s = searchAuditLogs logs (trim s)
  /\ searchAuditLogs test_logs " john " = searchAuditLogs test_logs "john"
  /\ searchAuditLogs test_logs " john " = [log_1; log_2]
  /\ List.existsb (entry_contains " john ") test_logs = false.
Proof.
  split; [|repeat split].
  unfold searchAuditLogs.
  now rewrite toLowerCase_trim, trim_idempotent.
Qed.

Lemma AuditActionType_eqb_eq (a b : AuditActionType) :
  AuditActionType_eqb a b = true <-> a = b.
Proof. destruct a, b; vm_compute; split; congruence. Qed.

Lemma AuditActionType_string_truthy (a : AuditActionType) :
  truthy (AuditActionType_string a) = true.
Proof. destruct a; reflexivity. Qed.

(** [Array.prototype.filter] keeps a subsequence, in order. *)
Lemma filter_sublist {A : Type} (f : A -> bool) (l : list A) :
  sublist (List.filter f l) l.
Proof.
  induction l as [|x l IH]; simpl.
  - constructor.
  - destruct (f x); now constructor.
Qed.

Lemma filter_filter_andb {A : Type} (f g : A -> bool) (l : list A) :
  List.filter g (List.filter f l) = List.filter (fun x => f x && g x) l.
Proof.
  induction l as [|x l IH]; simpl; [reflexivity|].
  destruct (f x); simpl; [destruct (g x)|]; now rewrite IH.
Qed.

Lemma searchAuditLogs_filter (logs : list AuditLogEntry.t) (text : string) :
  searchAuditLogs logs text = List.filter (matches_search text) logs.
Proof.
  unfold searchAuditLogs, matches_search. rewrite normalized_truthy.
  destruct (whitespace_only text); simpl; [|reflexivity].
  induction logs as [|x l IH]; simpl; congruence.
Qed.

Lemma searchAuditLogs_falsy (logs : list AuditLogEntry.t) (text : string) :
  truthy text = false -> searchAuditLogs logs text = logs.
Proof. intros H. apply truthy_false in H. now subst text. Qed.

Example filterAndSearch_none : filterAndSearchAuditLogs test_logs None None = test_logs.
Proof. reflexivity. Qed.

Example filterAndSearch_type :
  filterAndSearchAuditLogs test_logs (Some LOAN_CREATED) None = [log_1; log_3].
Proof. reflexivity. Qed.

Example filterAndSearch_text :
  filterAndSearchAuditLogs test_logs None (Some "Jane") = [log_3].
Proof. reflexivity. Qed.

Example filterAndSearch_both :
  filterAndSearchAuditLogs test_logs (Some LOAN_CREATED) (Some "John") = [log_1].
Proof. reflexivity. Qed.

(** C5: [filterAndSearchAuditLogs] is [searchAuditLogs] after
    [filterByActionType] when both arguments are given, and skips the step
    whose argument is absent; with both given, the result is exactly the
    entries whose action type is the given one and that match the search
    text, as an order-preserving subsequence of the input. *)
Theorem filterAndSearchAuditLogs_composition
    (logs : list AuditLogEntry.t) (actionType : AuditActionType)
    (text : string) :
  filterAndSearchAuditLogs logs (Some actionType) (Some text)
    = searchAuditLogs (filterByActionType logs actionType) text
  /\ filterAndSearchAuditLogs logs (Some actionType) None
     = filterByActionType logs actionType
  /\ filterAndSearchAuditLogs logs None (Some text) = searchAuditLogs logs text
  /\ filterAndSearchAuditLogs logs None None = logs
  /\ filterAndSearchAuditLogs logs (Some actionType) (Some text)
     = List.filter
         (fun log =>
            AuditActionType_eqb (AuditLogEntry.actionType log) actionType
            && matches_search text log)
         logs
  /\ (forall log : AuditLogEntry.t,
        In log (filterAndSearchAuditLogs logs (Some actionType) (Some text))
        <-> In log logs
            /\ AuditLogEntry.actionType log = actionType
            /\ In log (searchAuditLogs logs text))
  /\ sublist (filterAndSearchAuditLogs logs (Some actionType) (Some text)) logs.
Proof.
  assert (E : forall l a o,
             filterAndSearchAuditLogs l a (Some o)
             = searchAuditLogs (filterAndSearchAuditLogs l a None) o).
  { intros l a o. unfold filterAndSearchAuditLogs.
    destruct (truthy o) eqn:T; [reflexivity|].
    now rewrite searchAuditLogs_falsy. }
  assert (F : filterAndSearchAuditLogs logs (Some actionType) None
              = filterByActionType logs actionType).
  { unfold filterAndSearchAuditLogs.
    now rewrite AuditActionType_string_truthy. }
  assert (G : filterAndSearchAuditLogs logs (Some actionType) (Some text)
              = List.filter
                  (fun log =>
                     AuditActionType_eqb (AuditLogEntry.actionType log) actionType
                     && matches_search text log)
                  logs).
  { rewrite E, F, searchAuditLogs_filter. apply filter_filter_andb. }
  split; [now rewrite E, F|]. split; [exact F|].
  split; [now rewrite E|]. split; [reflexivity|].
  split; [exact G|]. split.
  - intros log. rewrite G, searchAuditLogs_filter, !List.filter_In.
    rewrite andb_true_iff, AuditActionType_eqb_eq. tauto.
  - rewrite G. apply filter_sublist.
Qed.

(** ** Persistence of the audit log *)

Section Persistence.

Context `{!JSON (list AuditLogEntry.t)} `{!Platform}.

Lemma getItem_setItem (key value : string) (w : World) :
  getItem key (setItem key value w) = Some value.
Proof. unfold getItem, setItem; simpl. apply lookup_insert_eq. Qed.

Lemma getAuditLogs_tick (w : World) : getAuditLogs (tick w) = getAuditLogs w.
Proof. reflexivity. Qed.

Lemma createAuditLogEntry_world a loan d p n (w : World) :
  snd (createAuditLogEntry a loan d p n w) = tick (tick w).
Proof. reflexivity. Qed.

Lemma createAuditLogEntry_fields a loan d p n (w : World) :
  let e := fst (createAuditLogEntry a loan d p n w) in
  AuditLogEntry.actionType e = a
  /\ AuditLogEntry.loanId e = LoanPick.id loan
  /\ AuditLogEntry.applicantName e = LoanPick.applicantName loan
  /\ AuditLogEntry.amount e = LoanPick.amount loan
  /\ AuditLogEntry.previousStatus e = p
  /\ AuditLogEntry.newStatus e = n
  /\ AuditLogEntry.description e = d.
Proof. simpl. repeat split. Qed.

(** C7: loading fails soft.  Whenever nothing is stored under the key of the
    audit log, or what is stored is not valid JSON ([JSON.parse] throws on
    it), [getAuditLogs] returns the empty list; it raises no error. *)
Theorem getAuditLogs_fails_soft (w : World) :
  getItem AUDIT_STORAGE_KEY w = None
  \/ (exists stored : string,
        getItem AUDIT_STORAGE_KEY w = Some stored
        /\ JSON_parse (A := list AuditLogEntry.t) stored = None) ->
  getAuditLogs w = [].
Proof.
  unfold getAuditLogs. intros [-> | (stored & -> & ->)]; [reflexivity|].
  now destruct (negb (truthy stored)).
Qed.

Context `{!JSONLaws (list AuditLogEntry.t)}.

Lemma getAuditLogs_saveAuditLogs (logs : list AuditLogEntry.t) (w : World) :
  getAuditLogs (saveAuditLogs logs w) = logs.
Proof.
  unfold getAuditLogs, saveAuditLogs. rewrite getItem_setItem.
  now rewrite JSON_stringify_truthy, JSON_parse_stringify.
Qed.

Lemma saveAuditLogs_saveAuditLogs (logs logs' : list AuditLogEntry.t) (w : World) :
  saveAuditLogs logs' (saveAuditLogs logs w) = saveAuditLogs logs' w.
Proof.
  unfold saveAuditLogs, setItem; simpl. f_equal. apply insert_insert_eq.
Qed.

Lemma getAuditLogs_logAudit (e : AuditLogEntry.t) (w : World) :
  getAuditLogs (logAudit e w) = (getAuditLogs w ++ [e])%list.
Proof. unfold logAudit. apply getAuditLogs_saveAuditLogs. Qed.

Lemma getAuditLogs_logAudit_all (es : list AuditLogEntry.t) (w : World) :
  getAuditLogs (logAudit_all es w) = (getAuditLogs w ++ es)%list.
Proof.
  revert w. induction es as [|e es IH]; intros w.
  - simpl. now rewrite app_nil_r.
  - change (logAudit_all (e :: es) w) with (logAudit_all es (logAudit e w)).
    rewrite IH, getAuditLogs_logAudit. now rewrite <- app_assoc.
Qed.

(** After the administrative reset the log is empty. *)
Lemma getAuditLogs_clearAuditLogs (w : World) :
  getAuditLogs (clearAuditLogs w) = [].
Proof.
  unfold getAuditLogs, clearAuditLogs, getItem, removeItem; simpl.
  now rewrite lookup_delete_eq.
Qed.

(** Each logging function appends one entry, the one it built. *)
Lemma perform_appends (c : AuditCall) (w : World) :
  exists e : AuditLogEntry.t,
    getAuditLogs (perform c w) = (getAuditLogs w ++ [e])%list
    /\ records c e
    /\ match c with
       | CallManualStatusChange _ p n | CallAutoDecision _ p n =>
           AuditLogEntry.previousStatus e = Some p
           /\ AuditLogEntry.newStatus e = Some n
       | CallLoanCreated _ | CallLoanDeleted _ =>
           AuditLogEntry.previousStatus e = None
           /\ AuditLogEntry.newStatus e = None
       end.
Proof.
  destruct c; simpl; eexists;
    (split; [etransitivity; [apply getAuditLogs_logAudit | reflexivity]|]);
    repeat split.
Qed.

Lemma perform_all_appends (cs : list AuditCall) (w : World) :
  exists es : list AuditLogEntry.t,
    getAuditLogs (perform_all cs w) = (getAuditLogs w ++ es)%list
    /\ Forall2 records cs es.
Proof.
  revert w. induction cs as [|c cs IH]; intros w.
  - exists []. simpl. rewrite app_nil_r. split; [reflexivity|constructor].
  - destruct (perform_appends c w) as (e & He & Hr & _).
    destruct (IH (perform c w)) as (es & Hes & Hrs).
    exists (e :: es). split; [|now constructor].
    change (perform_all (c :: cs) w) with (perform_all cs (perform c w)).
    now rewrite Hes, He, <- app_assoc.
Qed.

(** C3: the audit log is append-only.  For every persisted log [L] and
    entry [e], after [logAudit e] the persisted log is [L] with [e] appended
    at the end, so that no entry of [L] is changed, moved or removed; after
    any sequence of calls the log is [L] followed by the entries of the
    calls in call order, one entry for each call. *)
Theorem logAudit_append_only
    (L : list AuditLogEntry.t) (e : AuditLogEntry.t) (w : World) :
  getAuditLogs w = L ->
  getAuditLogs (logAudit e w) = (L ++ [e])%list
  /\ (forall (i : nat) (x : AuditLogEntry.t),
        L !! i = Some x -> getAuditLogs (logAudit e w) !! i = Some x)
  /\ getAuditLogs (logAudit e w) !! length L = Some e
  /\ length (getAuditLogs (logAudit e w)) = S (length L)
  /\ (forall es : list AuditLogEntry.t,
        getAuditLogs (logAudit_all es w) = (L ++ es)%list)
  /\ (forall cs : list AuditCall,
        exists es : list AuditLogEntry.t,
          getAuditLogs (perform_all cs w) = (L ++ es)%list
          /\ length es = length cs
          /\ Forall2 records cs es).
Proof.
  intros <-. rewrite getAuditLogs_logAudit.
  split; [reflexivity|].
  split; [intros i x Hi; now apply lookup_app_l_Some|].
  split; [apply list_lookup_middle; reflexivity|].
  split; [rewrite length_app; simpl; lia|].
  split; [intros es; apply getAuditLogs_logAudit_all|].
  intros cs. destruct (perform_all_appends cs w) as (es & E & R).
  exists es. split; [exact E|]. split; [|exact R].
  symmetry. exact (Forall2_length _ _ _ R).
Qed.

(** C8: the previous and the new status are on an entry exactly for the
    status changes.  The entry that [logManualStatusChange] or
    [logAutoDecision] appends carries both statuses as they were passed; the
    entry that [logLoanCreated] or [logLoanDeleted] appends carries
    neither. *)
Theorem status_fields_only_on_status_changes (w : World) :
  (forall (loan : LoanPick.t) (p n : LoanStatus),
     exists e : AuditLogEntry.t,
       getAuditLogs (logManualStatusChange loan p n w)
       = (getAuditLogs w ++ [e])%list
       /\ AuditLogEntry.actionType e = STATUS_CHANGED_MANUAL
       /\ AuditLogEntry.previousStatus e = Some p
       /\ AuditLogEntry.newStatus e = Some n)
  /\ (forall (loan : LoanPick.t) (p n : LoanStatus),
        exists e : AuditLogEntry.t,
          getAuditLogs (logAutoDecision loan p n w)
          = (getAuditLogs w ++ [e])%list
          /\ AuditLogEntry.actionType e = STATUS_CHANGED_AUTO
          /\ AuditLogEntry.previousStatus e = Some p
          /\ AuditLogEntry.newStatus e = Some n)
  /\ (forall loan : LoanApplication.t,
        exists e : AuditLogEntry.t,
          getAuditLogs (logLoanCreated loan w) = (getAuditLogs w ++ [e])%list
          /\ AuditLogEntry.actionType e = LOAN_CREATED
          /\ AuditLogEntry.previousStatus e = None
          /\ AuditLogEntry.newStatus e = None)
  /\ (forall loan : LoanApplication.t,
        exists e : AuditLogEntry.t,
          getAuditLogs (logLoanDeleted loan w) = (getAuditLogs w ++ [e])%list
          /\ AuditLogEntry.actionType e = LOAN_DELETED
          /\ AuditLogEntry.previousStatus e = None
          /\ AuditLogEntry.newStatus e = None).
Proof.
  split; [|split; [|split]].
  - intros loan p n.
    destruct (perform_appends (CallManualStatusChange loan p n) w)
      as (e & E & (A & _) & P & N).
    now exists e.
  - intros loan p n.
    destruct (perform_appends (CallAutoDecision loan p n) w)
      as (e & E & (A & _) & P & N).
    now exists e.
  - intros loan.
    destruct (perform_appends (CallLoanCreated loan) w)
      as (e & E & (A & _) & P & N).
    now exists e.
  - intros loan.
    destruct (perform_appends (CallLoanDeleted loan) w)
      as (e & E & (A & _) & P & N).
    now exists e.
Qed.

(** C9: the persistence round trip.  For every list of entries, loading
    right after saving it returns that list; saving what was just loaded
    leaves the next load unchanged, and leaves a store that was written by
    [saveAuditLogs] exactly as it was. *)
Theorem persistence_round_trip (logs : list AuditLogEntry.t) (w : World) :
  getAuditLogs (saveAuditLogs logs w) = logs
  /\ getAuditLogs (saveAuditLogs (getAuditLogs w) w) = getAuditLogs w
  /\ saveAuditLogs (getAuditLogs (saveAuditLogs logs w)) (saveAuditLogs logs w)
     = saveAuditLogs logs w.
Proof.
  split; [apply getAuditLogs_saveAuditLogs|].
  split; [apply getAuditLogs_saveAuditLogs|].
  rewrite getAuditLogs_saveAuditLogs. apply saveAuditLogs_saveAuditLogs.
Qed.

End Persistence.

(** ** The loan store *)

Lemma Q_pos_iff (x : Q) : Q_pos x = true <-> (0 < x)%Q.
Proof.
  unfold Q_pos. rewrite negb_true_iff, <- not_true_iff_false, Qle_bool_iff.
  split; [apply Qnot_le_lt | apply Qlt_not_le].
Qed.

Lemma Q_nonneg_iff (x : Q) : Q_nonneg x = true <-> (0 <= x)%Q.
Proof. apply Qle_bool_iff. Qed.

Lemma autoDecision_approved (loan : LoanApplication.t) :
  autoDecision loan = approved
  <-> (LoanApplication.amount loan <= 100000)%Q
      /\ (LoanApplication.termMonths loan <= 60)%Z.
Proof.
  unfold autoDecision.
  rewrite <- Qle_bool_iff, <- Z.leb_le, <- andb_true_iff.
  destruct (_ && _); split; congruence.
Qed.

Lemma autoDecision_rejected (loan : LoanApplication.t) :
  autoDecision loan = rejected
  <-> (100000 < LoanApplication.amount loan)%Q
      \/ (60 < LoanApplication.termMonths loan)%Z.
Proof.
  unfold autoDecision.
  destruct (Qle_bool (LoanApplication.amount loan) 100000) eqn:A;
    destruct (LoanApplication.termMonths loan <=? 60)%Z eqn:T; simpl.
  - apply Qle_bool_iff in A. apply Z.leb_le in T. split; [discriminate|].
    intros [H | H]; [now apply Qlt_not_le in H | lia].
  - apply Z.leb_gt in T. split; [now right | reflexivity].
  - split; [|reflexivity]. intros _. left. apply Qnot_le_lt.
    rewrite <- Qle_bool_iff. congruence.
  - apply Z.leb_gt in T. split; [now right | reflexivity].
Qed.

Section LoanStore.

Context `{!JSON (list AuditLogEntry.t)} `{!JSON (list LoanApplication.t)}
        `{!Platform}.

(** C1: for every loan application in the store, [autoDecideLoan] returns
    [approved] if and only if the amount is at most 100000 and the term is
    at most 60 months, and [rejected] if and only if one of the two bounds
    is exceeded; 100000 over 60 months is approved, 100001 over 60 months
    and 100000 over 61 months are rejected. *)
Theorem autoDecideLoan_rule
    (id : string) (loan : LoanApplication.t) (w : World) :
  findLoan id (getLoans w) = Some loan ->
  (exists (st : LoanStatus) (w' : World),
     autoDecideLoan id w = Ok (st, w')
     /\ (st = approved
         <-> (LoanApplication.amount loan <= 100000)%Q
             /\ (LoanApplication.termMonths loan <= 60)%Z)
     /\ (st = rejected
         <-> (100000 < LoanApplication.amount loan)%Q
             \/ (60 < LoanApplication.termMonths loan)%Z))
  /\ autoDecision (mock_loan 100000 60) = approved
  /\ autoDecision (mock_loan 100001 60) = rejected
  /\ autoDecision (mock_loan 100000 61) = rejected.
Proof.
  intros F. split; [|repeat split].
  unfold autoDecideLoan. rewrite F.
  eexists _, _. split; [reflexivity|].
  split; [apply autoDecision_approved | apply autoDecision_rejected].
Qed.

(** C2: for every loan application, [calculateMonthlyPayment] returns
    (amount x (1 + interestRate)) / termMonths, computed in binary64: the
    sum, the product and the quotient are each rounded to the nearest
    number.  It is what the stand-in of the component tests computes, for
    every loan.  The interest is taken once on the amount and the total is
    divided by the term; no power of the rate occurs.  For 50000 at 0.08
    over 24 months the payment is 2250 exactly.  The result is a rounded
    one in general (10000 at 0.1 over 12 months gives 916.6666666666666,
    which 2750/3 rounds to), and a term of 0 gives Infinity, or NaN when
    the amount is 0 as well. *)
Theorem calculateMonthlyPayment_formula (loan : LoanNumbers.t) :
  calculateMonthlyPayment loan
  = PrimFloat.div
      (PrimFloat.mul (LoanNumbers.amount loan)
         (PrimFloat.add 1 (LoanNumbers.interestRate loan)))
      (LoanNumbers.termMonths loan)
  /\ calculateMonthlyPayment_mock loan = calculateMonthlyPayment loan
  /\ calculateMonthlyPayment mock_numbers = 2250%float
  /\ calculateMonthlyPayment_mock mock_numbers = 2250%float
  /\ calculateMonthlyPayment (LoanNumbers.mk 10000 12 0x1.999999999999ap-4)
     = 0x1.ca55555555555p+9%float
  /\ calculateMonthlyPayment (LoanNumbers.mk 50000 0 0x1.47ae147ae147bp-4)
     = infinity
  /\ calculateMonthlyPayment (LoanNumbers.mk 0 0 0x1.47ae147ae147bp-4)
     = nan.
Proof.
  split; [reflexivity|]. split; [reflexivity|].
  repeat split; vm_compute; reflexivity.
Qed.

Lemma validate_None (input : NewLoan.t) :
  validate input = None
  <-> trim (NewLoan.applicantName input) <> ""
      /\ (0 < NewLoan.amount input)%Q
      /\ (0 < NewLoan.termMonths input)%Z
      /\ exists rate : Q,
           NewLoan.interestRate input = Some rate /\ (0 <= rate)%Q.
Proof.
  unfold validate.
  destruct (is_empty (trim (NewLoan.applicantName input))) eqn:N.
  { apply is_empty_true in N. split; [discriminate | tauto]. }
  assert (N' : trim (NewLoan.applicantName input) <> "").
  { intros E. apply is_empty_true in E. congruence. }
  destruct (Q_pos (NewLoan.amount input)) eqn:A; simpl.
  2:{ split; [discriminate|]. intros (_ & Hx & _).
      apply Q_pos_iff in Hx. congruence. }
  apply Q_pos_iff in A.
  destruct (0 <? NewLoan.termMonths input)%Z eqn:T; simpl.
  2:{ apply Z.ltb_ge in T. split; [discriminate|]. intros (_ & _ & Hx & _). lia. }
  apply Z.ltb_lt in T.
  destruct (NewLoan.interestRate input) as [rate|].
  2:{ split; [discriminate|]. intros (_ & _ & _ & r & Hx & _). discriminate. }
  destruct (Q_nonneg rate) eqn:R; simpl.
  - apply Q_nonneg_iff in R. split; [|reflexivity]. intros _.
    repeat split; try assumption. now exists rate.
  - split; [discriminate|]. intros (_ & _ & _ & r & Hx & Hr).
    injection Hx as <-. apply Q_nonneg_iff in Hr. congruence.
Qed.

(** The error of [validate] is the one of the first check that fails. *)
Lemma validate_first_failure (input : NewLoan.t) :
  (validate input = Some NameRequired <-> ~ name_given input)
  /\ (validate input = Some AmountRequired
      <-> name_given input /\ ~ amount_positive input)
  /\ (validate input = Some TermRequired
      <-> name_given input /\ amount_positive input /\ ~ term_positive input)
  /\ (validate input = Some InterestRateRequired
      <-> name_given input /\ amount_positive input /\ term_positive input
          /\ ~ rate_valid input).
Proof.
  unfold validate, name_given, amount_positive, term_positive, rate_valid.
  destruct (is_empty (trim (NewLoan.applicantName input))) eqn:N.
  { apply is_empty_true in N.
    repeat split; try discriminate; try tauto. }
  assert (N' : trim (NewLoan.applicantName input) <> "").
  { intros E. apply is_empty_true in E. congruence. }
  destruct (Q_pos (NewLoan.amount input)) eqn:A; simpl.
  2:{ assert (A' : ~ (0 < NewLoan.amount input)%Q).
      { rewrite <- Q_pos_iff. congruence. }
      repeat split; try discriminate; try tauto. }
  apply Q_pos_iff in A.
  destruct (0 <? NewLoan.termMonths input)%Z eqn:T; simpl.
  2:{ apply Z.ltb_ge in T.
      repeat split; try discriminate; try tauto; try lia. }
  apply Z.ltb_lt in T.
  destruct (NewLoan.interestRate input) as [rate|].
  2:{ repeat split; try discriminate; try tauto.
      intros (r & E & _). discriminate. }
  destruct (Q_nonneg rate) eqn:R; simpl.
  - apply Q_nonneg_iff in R.
    repeat split; try discriminate; try tauto.
    intros (_ & _ & _ & V). exfalso. apply V. now exists rate.
  - assert (R' : ~ (0 <= rate)%Q).
    { rewrite <- Q_nonneg_iff. congruence. }
    repeat split; try discriminate; try tauto.
    intros (r & E & Hr). injection E as <-. tauto.
Qed.

(** C6: the checks of [create] run in the order name, amount, term,
    interest rate, and the first one that fails is the one error of the
    call: an input whose name is missing fails with the name error whatever
    its other fields are, and so on down the list; a form submitted blank
    fails with the name error, "Applicant name is required". *)
Theorem createLoanApplication_validation_order
    (input : NewLoan.t) (w : World) :
  (~ name_given input ->
   createLoanApplication input w = Throw (Validation NameRequired))
  /\ (name_given input -> ~ amount_positive input ->
      createLoanApplication input w = Throw (Validation AmountRequired))
  /\ (name_given input -> amount_positive input -> ~ term_positive input ->
      createLoanApplication input w = Throw (Validation TermRequired))
  /\ (name_given input -> amount_positive input -> term_positive input ->
      ~ rate_valid input ->
      createLoanApplication input w = Throw (Validation InterestRateRequired))
  /\ (name_given input -> amount_positive input -> term_positive input ->
      rate_valid input ->
      exists (loan : LoanApplication.t) (w' : World),
        createLoanApplication input w = Ok (loan, w')
        /\ LoanApplication.status loan = pending)
  /\ createLoanApplication blank_input w = Throw (Validation NameRequired)
  /\ ValidationError_message NameRequired = "Applicant name is required".
Proof.
  destruct (validate_first_failure input) as (Hn & Ha & Ht & Hr).
  unfold createLoanApplication.
  split; [intros V; apply Hn in V; now rewrite V|].
  split; [intros V1 V2; rewrite (proj2 Ha); tauto|].
  split; [intros V1 V2 V3; rewrite (proj2 Ht); tauto|].
  split; [intros V1 V2 V3 V4; rewrite (proj2 Hr); tauto|].
  split; [|split; reflexivity].
  intros V1 V2 V3 V4.
  rewrite (proj2 (validate_None input)) by (repeat (split; [assumption|]); exact V4).
  eexists _, _. split; reflexivity.
Qed.

End LoanStore.

(** ** More on strings *)

Lemma string_app_cons (c : ascii) (a b : string) :
  String c a ++ b = String c (a ++ b).
Proof. reflexivity. Qed.

Lemma toLowerCase_app (a b : string) :
  toLowerCase (a ++ b) = toLowerCase a ++ toLowerCase b.
Proof.
  induction a as [|c a IH]; [reflexivity|].
  rewrite string_app_cons. simpl. now rewrite IH.
Qed.

Lemma string_app_assoc (a b c : string) : (a ++ b) ++ c = a ++ b ++ c.
Proof.
  induction a as [|x a IH]; [reflexivity|].
  rewrite !string_app_cons. now rewrite IH.
Qed.

Lemma string_app_empty_r (a : string) : a ++ "" = a.
Proof.
  induction a as [|x a IH]; [reflexivity|].
  rewrite string_app_cons. now rewrite IH.
Qed.

Lemma includes_refl (s : string) : includes s s = true.
Proof.
  apply includes_spec. exists "", "".
  change ("" ++ s ++ "") with (s ++ ""). now rewrite string_app_empty_r.
Qed.

Lemma includes_empty (s : string) : includes "" s = true.
Proof. destruct s; reflexivity. Qed.

Lemma includes_trans (a b c : string) :
  includes a b = true -> includes b c = true -> includes a c = true.
Proof.
  rewrite !includes_spec. intros (p & q & ->) (p' & q' & ->).
  exists (p' ++ p), (q ++ q'). now rewrite !string_app_assoc.
Qed.

(** What [trimStart] and [trimEnd] remove is at the ends. *)
Lemma trimStart_suffix (s : string) : exists p, s = p ++ trimStart s.
Proof.
  induction s as [|c s [p IH]]; simpl; [now exists ""|].
  destruct (is_whitespace c).
  - exists (String c p). rewrite string_app_cons. now rewrite <- IH.
  - now exists "".
Qed.

Lemma trimEnd_prefix (s : string) : exists q, s = trimEnd s ++ q.
Proof.
  induction s as [|c s [q IH]]; simpl; [now exists ""|].
  destruct (is_whitespace c && is_empty (trimEnd s)).
  - now exists (String c s).
  - exists q. rewrite string_app_cons. now rewrite <- IH.
Qed.

Lemma includes_trim (s : string) : includes (trim s) s = true.
Proof.
  apply includes_spec. unfold trim.
  destruct (trimStart_suffix s) as [p Hp].
  destruct (trimEnd_prefix (trimStart s)) as [q Hq].
  exists p, q. now rewrite <- Hq.
Qed.

Lemma trimEnd_app (a b : string) :
  trimEnd (a ++ b)
  = if whitespace_only b then trimEnd a else a ++ trimEnd b.
Proof.
  induction a as [|c a IH].
  - change ("" ++ b) with b. change ("" ++ trimEnd b) with (trimEnd b).
    destruct (whitespace_only b) eqn:W; [|reflexivity].
    apply is_empty_true. now rewrite trimEnd_whitespace_only.
  - rewrite !string_app_cons. cbn [trimEnd].
    rewrite IH. destruct (whitespace_only b) eqn:W; [reflexivity|].
    assert (E : is_empty (a ++ trimEnd b) = false).
    { destruct a; [|reflexivity].
      change ("" ++ trimEnd b) with (trimEnd b).
      now rewrite trimEnd_whitespace_only. }
    rewrite E, andb_false_r. reflexivity.
Qed.

Lemma trimStart_app (a b : string) :
  whitespace_only a = false -> trimStart (a ++ b) = trimStart a ++ b.
Proof.
  induction a as [|c a IH]; [discriminate|].
  rewrite string_app_cons. cbn [whitespace_only trimStart].
  destruct (is_whitespace c); simpl; [exact IH | reflexivity].
Qed.

Lemma whitespace_only_app (a b : string) :
  whitespace_only (a ++ b) = whitespace_only a && whitespace_only b.
Proof.
  induction a as [|c a IH]; [reflexivity|].
  rewrite string_app_cons. cbn [whitespace_only].
  now rewrite IH, andb_assoc.
Qed.

(** The trimmed text is still there, trimmed, once more is typed after
    it. *)
Lemma includes_trim_app (a b : string) :
  includes (trim a) (trim (a ++ b)) = true.
Proof.
  destruct (whitespace_only a) eqn:W.
  { assert (E : trim a = "").
    { apply is_empty_true. now rewrite trim_whitespace_only. }
    rewrite E. apply includes_empty. }
  unfold trim. rewrite trimStart_app by exact W. rewrite trimEnd_app.
  destruct (whitespace_only b); [apply includes_refl|].
  apply includes_spec.
  destruct (trimEnd_prefix (trimStart a)) as [q Hq].
  exists "", (q ++ trimEnd b).
  change ("" ++ trimEnd (trimStart a) ++ q ++ trimEnd b)
    with (trimEnd (trimStart a) ++ q ++ trimEnd b).
  rewrite <- string_app_assoc. now rewrite <- Hq.
Qed.

Lemma length_substring (n m : nat) (s : string) :
  String.length (substring n m s) <= m.
Proof.
  revert n m. induction s as [|c s IH]; intros [|n] [|m]; simpl; try lia.
  - specialize (IH 0 m). lia.
  - apply (IH n 0).
  - apply (IH n (S m)).
Qed.

Lemma substring_prefix (m : nat) (s : string) :
  exists rest, s = substring 0 m s ++ rest.
Proof.
  revert m. induction s as [|c s IH]; intros m.
  - exists "". now destruct m.
  - destruct m as [|m]; [now exists (String c s)|].
    destruct (IH m) as [rest E]. exists rest. simpl.
    rewrite string_app_cons. now rewrite <- E.
Qed.

Lemma includes_substring (n m : nat) (s : string) :
  includes (substring n m s) s = true.
Proof.
  apply includes_spec. revert n.
  induction s as [|c s IH]; intros n.
  - exists "", "". now destruct n, m.
  - destruct n as [|n].
    + destruct (substring_prefix m (String c s)) as [rest E].
      now exists "", rest.
    + destruct (IH n) as (b & a & E). exists (String c b), a.
      replace (substring (S n) m (String c s)) with (substring n m s)
        by now destruct m.
      rewrite string_app_cons. now rewrite <- E.
Qed.

Lemma substring_short (m : nat) (s : string) :
  String.length s <= m -> substring 0 m s = s.
Proof.
  revert m. induction s as [|c s IH]; intros m Hm; [now destruct m|].
  destruct m as [|m]; simpl in *; [lia|]. rewrite IH by lia. reflexivity.
Qed.

Lemma string_length_app (a b : string) :
  String.length (a ++ b) = String.length a + String.length b.
Proof.
  induction a as [|c a IH]; [reflexivity|].
  rewrite string_app_cons. simpl. now rewrite IH.
Qed.

(** ** More on the queries of the audit log *)

Lemma filter_none {A : Type} (f : A -> bool) (l : list A) :
  (forall x, In x l -> f x = false) -> List.filter f l = [].
Proof.
  induction l as [|x l IH]; simpl; intros Hf; [reflexivity|].
  rewrite (Hf x) by now left. apply IH. intros y Hy. apply Hf. now right.
Qed.

Lemma filter_sublist_mono {A : Type} (f g : A -> bool) (l : list A) :
  (forall x, f x = true -> g x = true) ->
  sublist (List.filter f l) (List.filter g l).
Proof.
  intros Hfg. induction l as [|x l IH]; simpl; [constructor|].
  destruct (f x) eqn:F.
  - rewrite (Hfg x F). now constructor.
  - destruct (g x); [now constructor | exact IH].
Qed.

(** X1: [filterByActionType] returns entries of the requested type only;
    filtering its result again by the same type changes nothing, and
    filtering it by another type leaves no entry. *)
Theorem filterByActionType_selects
    (logs : list AuditLogEntry.t) (a : AuditActionType) :
  Forall (fun log => AuditLogEntry.actionType log = a)
    (filterByActionType logs a)
  /\ filterByActionType (filterByActionType logs a) a
     = filterByActionType logs a
  /\ (forall b : AuditActionType,
        b <> a -> filterByActionType (filterByActionType logs a) b = []).
Proof.
  split; [|split].
  - apply List.Forall_forall. intros log Hin.
    apply List.filter_In in Hin. now apply AuditActionType_eqb_eq.
  - unfold filterByActionType. rewrite filter_filter_andb.
    apply List.filter_ext. intros log. apply andb_diag.
  - intros b Hb. apply filter_none. intros log Hin.
    apply List.filter_In in Hin. destruct Hin as [_ Ha].
    apply AuditActionType_eqb_eq in Ha.
    apply not_true_iff_false. rewrite AuditActionType_eqb_eq. congruence.
Qed.

(** X2: the four action types partition the log: the numbers of entries
    that [filterByActionType] returns for the four types add up to the
    number of entries. *)
Theorem filterByActionType_partition (logs : list AuditLogEntry.t) :
  length (filterByActionType logs LOAN_CREATED)
  + length (filterByActionType logs STATUS_CHANGED_MANUAL)
  + length (filterByActionType logs STATUS_CHANGED_AUTO)
  + length (filterByActionType logs LOAN_DELETED)
  = length logs.
Proof.
  unfold filterByActionType.
  induction logs as [|log logs IH]; simpl; [reflexivity|].
  destruct (AuditLogEntry.actionType log); simpl; lia.
Qed.

(** X3: filtering by type and searching commute: the order in which
    [filterAndSearchAuditLogs] applies its two steps does not show in its
    result. *)
Theorem filter_search_commute
    (logs : list AuditLogEntry.t) (a : AuditActionType) (text : string) :
  searchAuditLogs (filterByActionType logs a) text
  = filterByActionType (searchAuditLogs logs text) a
  /\ filterAndSearchAuditLogs logs (Some a) (Some text)
     = filterByActionType (searchAuditLogs logs text) a.
Proof.
  assert (E : searchAuditLogs (filterByActionType logs a) text
              = filterByActionType (searchAuditLogs logs text) a).
  { rewrite !searchAuditLogs_filter. unfold filterByActionType.
    rewrite !filter_filter_andb. apply List.filter_ext.
    intros log. apply andb_comm. }
  split; [exact E|]. rewrite <- E.
  unfold filterAndSearchAuditLogs. rewrite AuditActionType_string_truthy.
  destruct (truthy text) eqn:T; [reflexivity|].
  now rewrite searchAuditLogs_falsy.
Qed.

(** X4: searching within a search result: two searches may be made in
    either order, and repeating a search changes nothing. *)
Theorem searchAuditLogs_within_results
    (logs : list AuditLogEntry.t) (t1 t2 : string) :
  searchAuditLogs (searchAuditLogs logs t1) t2
  = searchAuditLogs (searchAuditLogs logs t2) t1
  /\ searchAuditLogs (searchAuditLogs logs t1) t1 = searchAuditLogs logs t1.
Proof.
  rewrite !searchAuditLogs_filter, !filter_filter_andb. split.
  - apply List.filter_ext. intros log. apply andb_comm.
  - apply List.filter_ext. intros log. apply andb_diag.
Qed.

Lemma matches_search_app (s more : string) (log : AuditLogEntry.t) :
  matches_search (s ++ more) log = true -> matches_search s log = true.
Proof.
  unfold matches_search. destruct (whitespace_only s) eqn:W; [reflexivity|].
  rewrite whitespace_only_app, W. simpl.
  assert (I : includes (trim (toLowerCase s)) (trim (toLowerCase (s ++ more)))
              = true).
  { rewrite toLowerCase_app. apply includes_trim_app. }
  unfold search_hit. rewrite !orb_true_iff.
  intros [[Hit | Hit] | Hit];
    [left; left | left; right | right]; exact (includes_trans _ _ _ I Hit).
Qed.

(** X5: on text and entries written in Basic Latin and Latin-1 (the
    strings of this development, on which [toLowerCase] maps each character
    by itself), typing more narrows the search: the result for a text
    followed by further characters is a subsequence of the result for the
    text. *)
Theorem searchAuditLogs_narrows
    (logs : list AuditLogEntry.t) (s more : string) :
  sublist (searchAuditLogs logs (s ++ more)) (searchAuditLogs logs s).
Proof.
  rewrite !searchAuditLogs_filter. apply filter_sublist_mono.
  intros log. apply matches_search_app.
Qed.

Lemma matches_search_own_field (log : AuditLogEntry.t) :
  matches_search (AuditLogEntry.applicantName log) log = true
  /\ matches_search (AuditLogEntry.loanId log) log = true
  /\ matches_search (AuditLogEntry.description log) log = true.
Proof.
  unfold matches_search, search_hit. repeat split.
  - rewrite (includes_trim (toLowerCase (AuditLogEntry.applicantName log))).
    now rewrite !orb_true_r.
  - rewrite (includes_trim (toLowerCase (AuditLogEntry.loanId log))).
    now rewrite !orb_true_r.
  - rewrite (includes_trim (toLowerCase (AuditLogEntry.description log))).
    now rewrite orb_true_r.
Qed.

(** X6: an entry is found by what is written in it: searching for the
    applicant name, the loan id or the description of an entry of the log
    returns that entry. *)
Theorem searchAuditLogs_finds_by_field
    (logs : list AuditLogEntry.t) (log : AuditLogEntry.t) :
  In log logs ->
  In log (searchAuditLogs logs (AuditLogEntry.applicantName log))
  /\ In log (searchAuditLogs logs (AuditLogEntry.loanId log))
  /\ In log (searchAuditLogs logs (AuditLogEntry.description log)).
Proof.
  intros Hin. rewrite !searchAuditLogs_filter, !List.filter_In.
  destruct (matches_search_own_field log) as (Hn & Hi & Hd).
  repeat split; assumption.
Qed.

Lemma filterAndSearchAuditLogs_distributes
    (l1 l2 : list AuditLogEntry.t)
    (actionType : option AuditActionType) (text : option string) :
  filterAndSearchAuditLogs (l1 ++ l2)%list actionType text
  = (filterAndSearchAuditLogs l1 actionType text
     ++ filterAndSearchAuditLogs l2 actionType text)%list.
Proof.
  assert (S : forall a b t,
             searchAuditLogs (a ++ b)%list t
             = (searchAuditLogs a t ++ searchAuditLogs b t)%list).
  { intros a b t. rewrite !searchAuditLogs_filter. apply List.filter_app. }
  unfold filterAndSearchAuditLogs, filterByActionType.
  destruct actionType as [a|], text as [t|];
    try rewrite AuditActionType_string_truthy;
    try destruct (truthy t);
    rewrite ?S, ?List.filter_app; try reflexivity.
  now rewrite S.
Qed.

(** X7: the queries look at each entry on its own: the result on two logs
    put end to end is the two results put end to end, so an entry appended
    to the log only adds itself, or nothing, to the end of a view. *)
Theorem filterAndSearchAuditLogs_app
    (l1 l2 : list AuditLogEntry.t)
    (actionType : option AuditActionType) (text : option string) :
  filterAndSearchAuditLogs (l1 ++ l2)%list actionType text
  = (filterAndSearchAuditLogs l1 actionType text
     ++ filterAndSearchAuditLogs l2 actionType text)%list
  /\ (forall e : AuditLogEntry.t,
        sublist (filterAndSearchAuditLogs l1 actionType text)
          (filterAndSearchAuditLogs (l1 ++ [e])%list actionType text)).
Proof.
  split.
  - apply filterAndSearchAuditLogs_distributes.
  - intros e. rewrite filterAndSearchAuditLogs_distributes.
    apply sublist_inserts_r. reflexivity.
Qed.

(** ** More on the stored audit log *)

Section Storage.

Context `{!JSON (list AuditLogEntry.t)} `{!Platform}.

Lemma getItem_setItem_ne (key key' value : string) (w : World) :
  key <> key' -> getItem key (setItem key' value w) = getItem key w.
Proof.
  intros Hne. unfold getItem, setItem; simpl.
  apply lookup_insert_ne. congruence.
Qed.

Lemma getItem_removeItem_ne (key key' : string) (w : World) :
  key <> key' -> getItem key (removeItem key' w) = getItem key w.
Proof.
  intros Hne. unfold getItem, removeItem; simpl.
  apply lookup_delete_ne. congruence.
Qed.

Lemma getItem_logAudit_ne (key : string) (e : AuditLogEntry.t) (w : World) :
  key <> AUDIT_STORAGE_KEY -> getItem key (logAudit e w) = getItem key w.
Proof. intros Hne. unfold logAudit, saveAuditLogs. now apply getItem_setItem_ne. Qed.

Lemma getItem_perform_ne (key : string) (c : AuditCall) (w : World) :
  key <> AUDIT_STORAGE_KEY -> getItem key (perform c w) = getItem key w.
Proof.
  intros Hne. destruct c; exact (getItem_logAudit_ne key _ _ Hne).
Qed.

(** X8: the service keeps to its own key.  Saving, clearing and logging
    leave what is stored under every other key of [localStorage] as it was,
    whatever sequence of logging calls is made; building an entry writes
    nothing at all. *)
Theorem audit_log_keeps_to_its_key (key : string) (w : World) :
  key <> AUDIT_STORAGE_KEY ->
  (forall logs : list AuditLogEntry.t,
     getItem key (saveAuditLogs logs w) = getItem key w)
  /\ getItem key (clearAuditLogs w) = getItem key w
  /\ (forall e : AuditLogEntry.t, getItem key (logAudit e w) = getItem key w)
  /\ (forall cs : list AuditCall,
        getItem key (perform_all cs w) = getItem key w)
  /\ (forall a loan d p n,
        localStorage (snd (createAuditLogEntry a loan d p n w))
        = localStorage w).
Proof.
  intros Hne.
  split; [intros logs; now apply getItem_setItem_ne|].
  split; [now apply getItem_removeItem_ne|].
  split; [intros e; now apply getItem_logAudit_ne|].
  split; [|reflexivity].
  intros cs. revert w. induction cs as [|c cs IH]; intros w; [reflexivity|].
  change (perform_all (c :: cs) w) with (perform_all cs (perform c w)).
  rewrite IH. now apply getItem_perform_ne.
Qed.

(** X9: the identifier of an entry that [createAuditLogEntry] builds is
    the time in base 36 followed by at most seven characters taken from the
    random number. *)
Theorem createAuditLogEntry_id_shape
    (a : AuditActionType) (loan : LoanPick.t) (d : string)
    (p n : option LoanStatus) (w : World) :
  startsWith (Date_now_toString36 (clock w))
    (AuditLogEntry.id (fst (createAuditLogEntry a loan d p n w))) = true
  /\ String.length (AuditLogEntry.id (fst (createAuditLogEntry a loan d p n w)))
     <= String.length (Date_now_toString36 (clock w)) + 7
  /\ exists random : string,
       AuditLogEntry.id (fst (createAuditLogEntry a loan d p n w))
       = Date_now_toString36 (clock w) ++ random
       /\ String.length random <= 7
       /\ includes random (Math_random_toString36 (clock w)) = true.
Proof.
  pose proof (length_substring 2 7 (Math_random_toString36 (clock w))) as Len.
  split; [|split].
  - apply startsWith_spec. now eexists.
  - simpl. rewrite string_length_app. lia.
  - exists (substring 2 7 (Math_random_toString36 (clock w))).
    split; [reflexivity|]. split; [exact Len|].
    apply includes_substring.
Qed.

Context `{!JSONLaws (list AuditLogEntry.t)}.

(** X10: the reset.  After [clearAuditLogs] nothing is stored under the
    key and the log reads as empty; clearing twice is clearing once; the
    first entry logged after a reset is the whole log. *)
Theorem clearAuditLogs_resets (w : World) :
  getItem AUDIT_STORAGE_KEY (clearAuditLogs w) = None
  /\ getAuditLogs (clearAuditLogs w) = []
  /\ clearAuditLogs (clearAuditLogs w) = clearAuditLogs w
  /\ (forall logs : list AuditLogEntry.t,
        getAuditLogs (clearAuditLogs (saveAuditLogs logs w)) = [])
  /\ (forall e : AuditLogEntry.t,
        getAuditLogs (logAudit e (clearAuditLogs w)) = [e]).
Proof.
  assert (G : forall v, getItem AUDIT_STORAGE_KEY (clearAuditLogs v) = None).
  { intros v. unfold getItem, clearAuditLogs, removeItem; simpl.
    apply lookup_delete_eq. }
  split; [apply G|].
  split; [apply getAuditLogs_clearAuditLogs|].
  split.
  { unfold clearAuditLogs, removeItem; simpl. f_equal.
    apply delete_id. apply lookup_delete_eq. }
  split; [intros logs; apply getAuditLogs_clearAuditLogs|].
  intros e. rewrite getAuditLogs_logAudit.
  now rewrite getAuditLogs_clearAuditLogs.
Qed.

(** X11: a store that cannot be read is overwritten.  When the stored text
    is empty or is not valid JSON, [logAudit] does not fail: it stores a log
    that holds the new entry only, and the text that was there is gone. *)
Theorem logAudit_overwrites_unreadable
    (stored : string) (e : AuditLogEntry.t) (w : World) :
  getItem AUDIT_STORAGE_KEY w = Some stored ->
  stored = "" \/ JSON_parse (A := list AuditLogEntry.t) stored = None ->
  getAuditLogs (logAudit e w) = [e]
  /\ getItem AUDIT_STORAGE_KEY (logAudit e w) = Some (JSON_stringify [e])
  /\ getItem AUDIT_STORAGE_KEY (logAudit e w) <> Some stored.
Proof.
  intros Hs Hbad.
  assert (E : getAuditLogs w = []).
  { unfold getAuditLogs. rewrite Hs.
    destruct Hbad as [-> | ->]; [reflexivity|].
    now destruct (negb (truthy stored)). }
  assert (S : getItem AUDIT_STORAGE_KEY (logAudit e w)
              = Some (JSON_stringify [e])).
  { unfold logAudit. rewrite E. apply getItem_setItem. }
  split; [rewrite getAuditLogs_logAudit; now rewrite E|].
  split; [exact S|].
  rewrite S. intros Heq. injection Heq as Heq.
  destruct Hbad as [-> | Hp].
  - pose proof (JSON_stringify_truthy [e]) as T. rewrite Heq in T. discriminate.
  - rewrite <- Heq, JSON_parse_stringify in Hp. discriminate.
Qed.

(** X12: [saveAuditLogs] replaces the log in full: of two saves the last
    one stands, whatever was stored before, and an entry logged after a
    save is appended to the saved list. *)
Theorem saveAuditLogs_overwrites
    (l1 l2 : list AuditLogEntry.t) (e : AuditLogEntry.t) (w : World) :
  saveAuditLogs l2 (saveAuditLogs l1 w) = saveAuditLogs l2 w
  /\ getAuditLogs (saveAuditLogs l2 (saveAuditLogs l1 w)) = l2
  /\ getAuditLogs (logAudit e (saveAuditLogs l1 w)) = (l1 ++ [e])%list.
Proof.
  split; [apply saveAuditLogs_saveAuditLogs|].
  split; [apply getAuditLogs_saveAuditLogs|].
  now rewrite getAuditLogs_logAudit, getAuditLogs_saveAuditLogs.
Qed.

(** X13: a view of the log grows at its end: after [logAudit], what
    [filterAndSearchAuditLogs] returns is what it returned before, followed
    by the new entry if the entry passes the filter and the search. *)
Theorem logAudit_extends_views
    (e : AuditLogEntry.t) (w : World)
    (actionType : option AuditActionType) (text : option string) :
  filterAndSearchAuditLogs (getAuditLogs (logAudit e w)) actionType text
  = (filterAndSearchAuditLogs (getAuditLogs w) actionType text
     ++ filterAndSearchAuditLogs [e] actionType text)%list
  /\ sublist (filterAndSearchAuditLogs (getAuditLogs w) actionType text)
       (filterAndSearchAuditLogs (getAuditLogs (logAudit e w)) actionType text).
Proof.
  rewrite getAuditLogs_logAudit, filterAndSearchAuditLogs_distributes.
  split; [reflexivity|]. apply sublist_inserts_r. reflexivity.
Qed.

Lemma logManualStatusChange_unfold (loan : LoanPick.t) (p n : LoanStatus) (w : World) :
  logManualStatusChange loan p n w
  = logAudit
      (fst (createAuditLogEntry STATUS_CHANGED_MANUAL loan
              ("Loan for " ++ LoanPick.applicantName loan
                 ++ " manually changed from " ++ LoanStatus_string p
                 ++ " to " ++ LoanStatus_string n)
              (Some p) (Some n) w))
      (tick (tick w)).
Proof. reflexivity. Qed.

Lemma logAutoDecision_unfold (loan : LoanPick.t) (p n : LoanStatus) (w : World) :
  logAutoDecision loan p n w
  = logAudit
      (fst (createAuditLogEntry STATUS_CHANGED_AUTO loan
              ("Loan for " ++ LoanPick.applicantName loan
                 ++ " auto-decided from " ++ LoanStatus_string p
                 ++ " to " ++ LoanStatus_string n)
              (Some p) (Some n) w))
      (tick (tick w)).
Proof. reflexivity. Qed.

Lemma search_hit_description (needle before after : string) (log : AuditLogEntry.t) :
  AuditLogEntry.description log = before ++ needle ++ after ->
  search_hit (trim (toLowerCase needle)) log = true.
Proof.
  intros D. unfold search_hit.
  assert (I : includes (trim (toLowerCase needle))
                (toLowerCase (AuditLogEntry.description log)) = true).
  { apply (includes_trans _ (toLowerCase needle)); [apply includes_trim|].
    apply includes_spec. rewrite D, !toLowerCase_app. now eexists _, _. }
  now rewrite I.
Qed.

(** X14: a status change is found by its statuses: after
    [logManualStatusChange] or [logAutoDecision], searching the log for the
    name of the previous or of the new status returns the entry that was
    just logged. *)
Theorem status_change_found_by_status
    (loan : LoanPick.t) (p n : LoanStatus) (w : World) :
  (exists e : AuditLogEntry.t,
     getAuditLogs (logManualStatusChange loan p n w)
     = (getAuditLogs w ++ [e])%list
     /\ In e (searchAuditLogs (getAuditLogs (logManualStatusChange loan p n w))
                (LoanStatus_string p))
     /\ In e (searchAuditLogs (getAuditLogs (logManualStatusChange loan p n w))
                (LoanStatus_string n)))
  /\ (exists e : AuditLogEntry.t,
        getAuditLogs (logAutoDecision loan p n w)
        = (getAuditLogs w ++ [e])%list
        /\ In e (searchAuditLogs (getAuditLogs (logAutoDecision loan p n w))
                   (LoanStatus_string p))
        /\ In e (searchAuditLogs (getAuditLogs (logAutoDecision loan p n w))
                   (LoanStatus_string n))).
Proof.
  assert (A : forall (l : list AuditLogEntry.t) (e : AuditLogEntry.t)
                     (needle before after : string),
             AuditLogEntry.description e = before ++ needle ++ after ->
             In e (searchAuditLogs (l ++ [e])%list needle)).
  { intros l e needle before after D.
    rewrite searchAuditLogs_filter, List.filter_In. split.
    - apply List.in_or_app. right. now left.
    - unfold matches_search.
      rewrite (search_hit_description needle before after e D).
      apply orb_true_r. }
  assert (T : forall v : World, getAuditLogs (tick (tick v)) = getAuditLogs v)
    by reflexivity.
  split.
  - rewrite logManualStatusChange_unfold, getAuditLogs_logAudit, T.
    eexists. split; [reflexivity|]. split.
    + apply (A _ _ _ ("Loan for " ++ LoanPick.applicantName loan
                        ++ " manually changed from ")
               (" to " ++ LoanStatus_string n)).
      simpl. now rewrite !string_app_assoc.
    + apply (A _ _ _ ("Loan for " ++ LoanPick.applicantName loan
                        ++ " manually changed from " ++ LoanStatus_string p
                        ++ " to ") "").
      simpl. now rewrite !string_app_assoc, string_app_empty_r.
  - rewrite logAutoDecision_unfold, getAuditLogs_logAudit, T.
    eexists. split; [reflexivity|]. split.
    + apply (A _ _ _ ("Loan for " ++ LoanPick.applicantName loan
                        ++ " auto-decided from ")
               (" to " ++ LoanStatus_string n)).
      simpl. now rewrite !string_app_assoc.
    + apply (A _ _ _ ("Loan for " ++ LoanPick.applicantName loan
                        ++ " auto-decided from " ++ LoanStatus_string p
                        ++ " to ") "").
      simpl. now rewrite !string_app_assoc, string_app_empty_r.
Qed.

End Storage.

(** X15: every entry the service logs for a loan is found by the loan:
    after any of the four logging calls, searching the log for the
    applicant name or for the loan id returns the entry just logged. *)
Theorem logged_entry_found_by_loan
    `{!JSON (list AuditLogEntry.t)} `{!Platform}
    `{!JSONLaws (list AuditLogEntry.t)} (c : AuditCall) (w : World) :
  exists e : AuditLogEntry.t,
    getAuditLogs (perform c w) = (getAuditLogs w ++ [e])%list
    /\ In e (searchAuditLogs (getAuditLogs (perform c w))
               (LoanPick.applicantName (AuditCall_loan c)))
    /\ In e (searchAuditLogs (getAuditLogs (perform c w))
               (LoanPick.id (AuditCall_loan c))).
Proof.
  destruct (perform_appends c w) as (e & E & (_ & Hid & Hname & _) & _).
  exists e. split; [exact E|]. rewrite E, <- Hname, <- Hid.
  assert (Hin : In e (getAuditLogs w ++ [e])%list).
  { apply List.in_or_app. right. now left. }
  destruct (matches_search_own_field e) as (Hn & Hi & _).
  rewrite !searchAuditLogs_filter, !List.filter_In. now repeat split.
Qed.

(** ** The list of loans *)

Section LoanListFacts.

Import LoanList.

Lemma modal_consistent_handle (a : Action) (st : LoanList.State) :
  modal_consistent st -> modal_consistent (handle a st).
Proof.
  unfold modal_consistent. intros I.
  destruct a as [[] loan| |]; simpl; try exact I;
    try (unfold confirmDelete; destruct (loanToDelete st)); simpl;
    split; congruence.
Qed.

(** X16: the two refs of the delete dialog agree.  Whatever the user does,
    [showDeleteModal] is true exactly when [loanToDelete] holds a loan, so
    that the dialog is rendered exactly when [showDeleteModal] is true. *)
Theorem LoanList_modal_consistent (acts : list Action) :
  modal_consistent (handle_all acts setup)
  /\ modalShown (handle_all acts setup)
     = showDeleteModal (handle_all acts setup).
Proof.
  assert (I : forall st, modal_consistent st ->
                         modal_consistent (handle_all acts st)).
  { induction acts as [|a acts IH]; intros st Hst; [exact Hst|].
    apply IH. now apply modal_consistent_handle. }
  assert (I0 : modal_consistent setup) by (split; simpl; congruence).
  specialize (I setup I0). split; [exact I|].
  unfold modalShown. destruct I as [I1 I2].
  destruct (showDeleteModal (handle_all acts setup)) eqn:S; simpl;
    [|reflexivity].
  destruct (loanToDelete (handle_all acts setup)); [reflexivity|].
  now destruct (I1 eq_refl).
Qed.

Lemma isPending_pending (loan : LoanApplication.t) :
  isPending loan = true <-> LoanApplication.status loan = pending.
Proof.
  unfold isPending. destruct (LoanApplication.status loan); simpl;
    split; congruence.
Qed.

Lemma clicked_when_pending_more
    (past more : list Step) (b : Button) (id : string) :
  clicked_when_pending past b id ->
  clicked_when_pending (past ++ more)%list b id.
Proof.
  intros (loans & loan & Hin & H).
  exists loans, loan. split; [|exact H].
  apply List.in_or_app. now left.
Qed.

(** What holds of a session so far: each event, and the loan that waits in
    the dialog, goes back to a click on a loan that was pending. *)
Lemma clicked_when_pending_handle
    (past : list Step) (loans : list LoanApplication.t) (a : Action)
    (st : LoanList.State) :
  offered loans st a ->
  Forall (fun ev => clicked_when_pending past (Emit_button ev) (Emit_id ev))
    (emitted st)
  /\ (forall t, loanToDelete st = Some t ->
                clicked_when_pending past Delete (LoanList.id t)) ->
  Forall (fun ev => clicked_when_pending (past ++ [(loans, a)])%list
                      (Emit_button ev) (Emit_id ev))
    (emitted (handle a st))
  /\ (forall t, loanToDelete (handle a st) = Some t ->
                clicked_when_pending (past ++ [(loans, a)])%list Delete
                  (LoanList.id t)).
Proof.
  intros Hoff [Hev Ht].
  assert (Hev' : Forall (fun ev => clicked_when_pending
                                     (past ++ [(loans, a)])%list
                                     (Emit_button ev) (Emit_id ev))
                   (emitted st)).
  { eapply List.Forall_impl; [|exact Hev].
    intros ev. apply clicked_when_pending_more. }
  assert (Ht' : forall t, loanToDelete st = Some t ->
                  clicked_when_pending (past ++ [(loans, a)])%list Delete
                    (LoanList.id t)).
  { intros t Et. apply clicked_when_pending_more. now apply Ht. }
  destruct a as [b loan| |]; simpl in *.
  - destruct Hoff as [Hin Hp]. apply isPending_pending in Hp.
    assert (P : clicked_when_pending (past ++ [(loans, Click b loan)])%list
                  b (LoanApplication.id loan)).
    { exists loans, loan. split; [|now repeat split].
      apply List.in_or_app. right. now left. }
    destruct b; simpl; (split; [|try exact Ht']);
      try (apply Forall_app; split; [exact Hev'|]; now repeat constructor);
      try exact Hev'.
    intros t Et. injection Et as <-. exact P.
  - unfold confirmDelete. destruct (loanToDelete st) as [t|] eqn:Et; simpl.
    + split; [|discriminate].
      apply Forall_app. split; [exact Hev'|].
      constructor; [|constructor]. now apply Ht'.
    + split; [exact Hev' | discriminate].
  - split; [exact Hev' | discriminate].
Qed.

(** X17: every event of the list goes back to a click on a pending loan.
    The props may change between any two things the user does.  As long as
    the user does what the page offers (the buttons of the rows of the
    props of the moment, and the dialog when it is shown), every event the
    component emits carries the id of a loan that was among the props, and
    pending, when the button of the event was clicked in its row: for
    [approve], [reject] and [autoDecide] that is when the event is emitted;
    for [delete] it is when the dialog was opened, not when it is
    confirmed.  For a decided loan no button is rendered, only the dash. *)
Theorem LoanList_events_from_pending_rows (steps : list Step) :
  offered_steps setup steps ->
  Forall (fun ev => clicked_when_pending steps (Emit_button ev) (Emit_id ev))
    (emitted (run steps setup))
  /\ (forall (loan : LoanApplication.t) (b : Button),
        LoanApplication.status loan <> pending ->
        buttonShown b loan = false /\ noActionsShown loan = true).
Proof.
  assert (G : forall past st,
             offered_steps st steps ->
             Forall (fun ev => clicked_when_pending past
                                 (Emit_button ev) (Emit_id ev)) (emitted st)
             /\ (forall t, loanToDelete st = Some t ->
                           clicked_when_pending past Delete (LoanList.id t)) ->
             Forall (fun ev => clicked_when_pending (past ++ steps)%list
                                 (Emit_button ev) (Emit_id ev))
               (emitted (run steps st))).
  { induction steps as [|[loans a] rest IH]; intros past st Ho J.
    - rewrite List.app_nil_r. apply J.
    - destruct Ho as [Ha Hrest].
      change (past ++ (loans, a) :: rest)%list
        with (past ++ [(loans, a)] ++ rest)%list.
      rewrite List.app_assoc.
      apply (IH (past ++ [(loans, a)])%list (handle a st) Hrest).
      now apply clicked_when_pending_handle. }
  intros Hoff. split.
  - apply (G [] setup Hoff). split; [constructor | discriminate].
  - intros loan b Hs. unfold buttonShown, noActionsShown.
    destruct (isPending loan) eqn:P; [|now split].
    apply isPending_pending in P. contradiction.
Qed.

(** The dialog outlives the status: opened for a pending loan, it still
    deletes the loan after the loan was approved. *)
Example LoanList_delete_after_approve :
  offered_steps setup delete_after_approve
  /\ emitted (run delete_after_approve setup)
     = [EmitApprove "test-id"; EmitDelete "test-id"]
  /\ map LoanApplication.status
       (setStatus "test-id" approved [mock_loan 50000 24])
     = [approved].
Proof.
  split; [|split; reflexivity].
  simpl. repeat split; now left.
Qed.

Lemma deletes_handle (a : Action) (st : LoanList.State) :
  deletes (handle a st) <= deletes st + (if is_confirm a then 1 else 0)
  /\ deletes (handle a st) + waiting (handle a st)
     <= deletes st + waiting st + (if is_delete_click a then 1 else 0).
Proof.
  unfold deletes, waiting.
  destruct a as [[] loan| |]; simpl;
    try (unfold confirmDelete; destruct (loanToDelete st)); simpl;
    rewrite ?List.filter_app, ?length_app; simpl; lia.
Qed.

(** X18: a loan is deleted only when the user asked for it and confirmed.
    In every sequence of actions there are no more [delete] events than
    confirmations and no more than clicks on a delete button; cancelling
    emits nothing, a confirmation emits the id of the loan whose delete
    button was clicked last, and confirming again emits nothing more. *)
Theorem LoanList_delete_needs_confirmation (acts : list Action) :
  deletes (handle_all acts setup) <= length (List.filter is_confirm acts)
  /\ deletes (handle_all acts setup)
     <= length (List.filter is_delete_click acts)
  /\ (forall st, emitted (closeDeleteModal st) = emitted st)
  /\ (forall st i1 n1 i2 n2,
        emitted (confirmDelete
                   (openDeleteModal i2 n2 (openDeleteModal i1 n1 st)))
        = (emitted st ++ [EmitDelete i2])%list)
  /\ (forall st, emitted (confirmDelete (confirmDelete st))
                 = emitted (confirmDelete st))
  /\ (forall st, emitted (confirmDelete (closeDeleteModal st)) = emitted st).
Proof.
  assert (G : forall st,
             deletes (handle_all acts st)
             <= deletes st + length (List.filter is_confirm acts)
             /\ deletes (handle_all acts st) + waiting (handle_all acts st)
                <= deletes st + waiting st
                   + length (List.filter is_delete_click acts)).
  { induction acts as [|a acts IH]; intros st; [simpl; lia|].
    change (handle_all (a :: acts) st) with (handle_all acts (handle a st)).
    destruct (IH (handle a st)) as [IH1 IH2].
    destruct (deletes_handle a st) as [D1 D2]. simpl.
    destruct (is_confirm a), (is_delete_click a); simpl; lia. }
  destruct (G setup) as [G1 G2]. unfold deletes, waiting in *. simpl in *.
  split; [lia|]. split; [lia|].
  repeat split.
Qed.

(** X23: in the dialog only the Delete button deletes: a click on the
    Cancel button or beside the dialog closes it and emits nothing, and a
    click on the Delete button emits one [delete] event, for the loan whose
    delete button opened the dialog, and closes it. *)
Theorem DeleteModal_only_delete_button_deletes
    (c : DeleteModal.Control) (i n : string) (st : LoanList.State) :
  (c <> DeleteModal.DeleteButton ->
   emitted (dialog_click c (openDeleteModal i n st)) = emitted st)
  /\ emitted (dialog_click DeleteModal.DeleteButton (openDeleteModal i n st))
     = (emitted st ++ [EmitDelete i])%list
  /\ modalShown (dialog_click c (openDeleteModal i n st)) = false
  /\ modalShown (openDeleteModal i n st) = true.
Proof.
  split; [|repeat split; now destruct c].
  intros Hc. destruct c; [reflexivity | reflexivity | contradiction].
Qed.

End LoanListFacts.

(** ** The viewer of the audit log *)

Lemma filter_all {A : Type} (f : A -> bool) (l : list A) :
  (forall x, f x = true) -> List.filter f l = l.
Proof.
  intros Hf. induction l as [|x l IH]; simpl; [reflexivity|].
  now rewrite Hf, IH.
Qed.

Lemma filterAndSearchAuditLogs_filter
    (logs : list AuditLogEntry.t)
    (actionType : option AuditActionType) (text : option string) :
  filterAndSearchAuditLogs logs actionType text
  = List.filter (passes actionType text) logs.
Proof.
  unfold filterAndSearchAuditLogs, passes, filterByActionType.
  destruct actionType as [a|], text as [t|];
    try rewrite AuditActionType_string_truthy.
  - destruct (truthy t) eqn:T.
    + now rewrite searchAuditLogs_filter, filter_filter_andb.
    + apply truthy_false in T. subst t. apply List.filter_ext.
      intros log. now rewrite andb_true_r.
  - apply List.filter_ext. intros log. now rewrite andb_true_r.
  - destruct (truthy t) eqn:T.
    + now rewrite searchAuditLogs_filter.
    + apply truthy_false in T. subst t. symmetry. now apply filter_all.
  - symmetry. now apply filter_all.
Qed.

Section Sorting.

Context {A : Type} (compareFn : A -> A -> Z).

Lemma sort_insert_perm (x : A) (l : list A) :
  Permutation (sort_insert compareFn x l) (x :: l).
Proof.
  induction l as [|y l IH]; simpl; [reflexivity|].
  destruct (compareFn y x <? 0)%Z; [|reflexivity].
  rewrite IH. apply perm_swap.
Qed.

Lemma Array_sort_perm (l : list A) : Permutation (Array_sort compareFn l) l.
Proof.
  induction l as [|x l IH]; simpl; [reflexivity|].
  rewrite sort_insert_perm. now constructor.
Qed.

Lemma sort_insert_last (x : A) (l : list A) :
  Forall (fun y => (compareFn y x < 0)%Z) l ->
  sort_insert compareFn x l = (l ++ [x])%list.
Proof.
  induction l as [|y l IH]; intros Hx; [reflexivity|]. simpl.
  apply Forall_cons_iff in Hx. destruct Hx as [Hy Hl].
  apply Z.ltb_lt in Hy. rewrite Hy. now rewrite IH.
Qed.

(** Sorting a list each of whose elements the comparator puts behind all
    that follow it reverses the list. *)
Lemma Array_sort_increasing (l : list A) :
  StronglySorted (fun a b => (compareFn b a < 0)%Z) l ->
  Array_sort compareFn l = List.rev l.
Proof.
  induction l as [|x l IH]; intros Hs; [reflexivity|].
  apply StronglySorted_inv in Hs. destruct Hs as [Hl Hx].
  simpl. rewrite (IH Hl). apply sort_insert_last.
  apply List.Forall_forall. intros y Hy. apply List.in_rev in Hy.
  rewrite List.Forall_forall in Hx. now apply Hx.
Qed.

(** The sort reads the comparator on the elements of the list only. *)
Lemma sort_insert_ext (compareFn' : A -> A -> Z) (x : A) (l : list A) :
  (forall y, In y l -> compareFn y x = compareFn' y x) ->
  sort_insert compareFn x l = sort_insert compareFn' x l.
Proof.
  induction l as [|y l IH]; intros E; [reflexivity|]. simpl.
  rewrite (E y) by now left.
  destruct (compareFn' y x <? 0)%Z; [|reflexivity].
  f_equal. apply IH. intros z Hz. apply E. now right.
Qed.

Lemma Array_sort_ext_in (compareFn' : A -> A -> Z) (l : list A) :
  (forall a b, In a l -> In b l -> compareFn a b = compareFn' a b) ->
  Array_sort compareFn l = Array_sort compareFn' l.
Proof.
  induction l as [|x l IH]; intros E; [reflexivity|]. simpl.
  rewrite <- IH by (intros a b Ha Hb; apply E; now right).
  apply sort_insert_ext. intros y Hy. apply E; [right | now left].
  eapply Permutation_in; [apply Array_sort_perm | exact Hy].
Qed.

(** A comparator that compares keys, larger keys first. *)
Variable key : A -> Z.
Hypothesis compareFn_key : forall a b, compareFn a b = (key b - key a)%Z.

Lemma sort_insert_sorted (x : A) (l : list A) :
  StronglySorted (larger_first key) l ->
  StronglySorted (larger_first key) (sort_insert compareFn x l).
Proof.
  induction l as [|y l IH]; intros Hs; simpl.
  - repeat constructor.
  - apply StronglySorted_inv in Hs. destruct Hs as [Hl Hy].
    rewrite compareFn_key.
    destruct (key x - key y <? 0)%Z eqn:C.
    + apply Z.ltb_lt in C. constructor; [now apply IH|].
      rewrite sort_insert_perm.
      constructor; [unfold larger_first; lia | exact Hy].
    + apply Z.ltb_ge in C. constructor; [now constructor|].
      constructor; [unfold larger_first; lia|].
      eapply List.Forall_impl; [|exact Hy].
      unfold larger_first. intros z Hz. lia.
Qed.

Lemma Array_sort_sorted (l : list A) :
  StronglySorted (larger_first key) (Array_sort compareFn l).
Proof.
  induction l as [|x l IH]; simpl; [constructor|].
  now apply sort_insert_sorted.
Qed.

Lemma sort_insert_first (x : A) (l : list A) :
  Forall (larger_first key x) l -> sort_insert compareFn x l = x :: l.
Proof.
  destruct l as [|y l]; [reflexivity|]. intros Hx. simpl.
  apply Forall_inv in Hx. unfold larger_first in Hx.
  rewrite compareFn_key.
  destruct (key x - key y <? 0)%Z eqn:C; [|reflexivity].
  apply Z.ltb_lt in C. lia.
Qed.

Lemma Array_sort_of_sorted (l : list A) :
  StronglySorted (larger_first key) l -> Array_sort compareFn l = l.
Proof.
  induction l as [|x l IH]; intros Hs; [reflexivity|].
  apply StronglySorted_inv in Hs. destruct Hs as [Hl Hx].
  simpl. rewrite (IH Hl). now apply sort_insert_first.
Qed.

Lemma Array_sort_idempotent (l : list A) :
  Array_sort compareFn (Array_sort compareFn l) = Array_sort compareFn l.
Proof. apply Array_sort_of_sorted, Array_sort_sorted. Qed.

Lemma filter_StronglySorted (f : A -> bool) (l : list A) :
  StronglySorted (larger_first key) l ->
  StronglySorted (larger_first key) (List.filter f l).
Proof.
  induction l as [|x l IH]; intros Hs; simpl; [constructor|].
  apply StronglySorted_inv in Hs. destruct Hs as [Hl Hx].
  destruct (f x); [|now apply IH].
  constructor; [now apply IH|].
  apply List.Forall_forall. intros z Hz. apply List.filter_In in Hz.
  destruct Hz as [Hz _]. rewrite List.Forall_forall in Hx. now apply Hx.
Qed.

Lemma filter_sort_insert (f : A -> bool) (x : A) (l : list A) :
  StronglySorted (larger_first key) l ->
  List.filter f (sort_insert compareFn x l)
  = if f x then sort_insert compareFn x (List.filter f l)
    else List.filter f l.
Proof.
  induction l as [|y l IH]; intros Hs; simpl.
  - now destruct (f x).
  - pose proof Hs as Hs'.
    apply StronglySorted_inv in Hs. destruct Hs as [Hl Hy].
    rewrite compareFn_key.
    destruct (key x - key y <? 0)%Z eqn:C; simpl.
    + rewrite (IH Hl). destruct (f y) eqn:Fy, (f x); simpl;
        rewrite ?compareFn_key, ?C; reflexivity.
    + apply Z.ltb_ge in C. destruct (f x) eqn:Fx; [|reflexivity].
      symmetry. apply sort_insert_first.
      apply List.Forall_forall. intros z Hz.
      assert (Hz' : In z (y :: l)).
      { change (In z (List.filter f (y :: l))) in Hz.
        now apply List.filter_In in Hz. }
      destruct Hz' as [<- | Hz']; [unfold larger_first; lia|].
      assert (Hyz : larger_first key y z).
      { rewrite List.Forall_forall in Hy. now apply Hy. }
      unfold larger_first in *. lia.
Qed.

(** A stable sort and a filter may be made in either order. *)
Lemma filter_Array_sort (f : A -> bool) (l : list A) :
  List.filter f (Array_sort compareFn l)
  = Array_sort compareFn (List.filter f l).
Proof.
  induction l as [|x l IH]; simpl; [reflexivity|].
  rewrite filter_sort_insert by apply Array_sort_sorted.
  rewrite IH. now destruct (f x).
Qed.

End Sorting.

Section ViewerFacts.

Import AuditLogViewer.

Context `{!JSON (list AuditLogEntry.t)}.

Variable Date_getTime : string -> option Z.

Lemma newestFirst_dates_key (a b : AuditLogEntry.t) :
  newestFirst_dates Date_getTime a b
  = (time_key Date_getTime b - time_key Date_getTime a)%Z.
Proof. reflexivity. Qed.

(** On entries that have a time the sort reads the difference of the
    times. *)
Lemma SortCompare_dates (a b : AuditLogEntry.t) :
  time_of Date_getTime a <> None ->
  time_of Date_getTime b <> None ->
  SortCompare (newestFirst Date_getTime) a b
  = newestFirst_dates Date_getTime a b.
Proof.
  unfold SortCompare, newestFirst, newestFirst_dates, time_key, time_of.
  destruct (Date_getTime (AuditLogEntry.timestamp a)),
           (Date_getTime (AuditLogEntry.timestamp b)); congruence.
Qed.

Lemma Array_sort_dates (logs : list AuditLogEntry.t) :
  all_dates Date_getTime logs ->
  Array_sort (SortCompare (newestFirst Date_getTime)) logs
  = Array_sort (newestFirst_dates Date_getTime) logs.
Proof.
  intros D. apply Array_sort_ext_in. intros a b Ha Hb.
  unfold all_dates in D. rewrite List.Forall_forall in D.
  apply SortCompare_dates; now apply D.
Qed.

Lemma all_dates_filter (f : AuditLogEntry.t -> bool)
    (logs : list AuditLogEntry.t) :
  all_dates Date_getTime logs ->
  all_dates Date_getTime (List.filter f logs).
Proof.
  unfold all_dates. rewrite !List.Forall_forall. intros D log Hin.
  apply List.filter_In in Hin. now apply D.
Qed.

Lemma all_dates_perm (logs logs' : list AuditLogEntry.t) :
  Permutation logs logs' ->
  all_dates Date_getTime logs -> all_dates Date_getTime logs'.
Proof.
  unfold all_dates. rewrite !List.Forall_forall. intros P D log Hin.
  apply D. eapply Permutation_in; [symmetry; exact P | exact Hin].
Qed.

Lemma all_dates_sorted (logs : list AuditLogEntry.t) :
  all_dates Date_getTime logs ->
  all_dates Date_getTime
    (Array_sort (SortCompare (newestFirst Date_getTime)) logs).
Proof.
  apply all_dates_perm. symmetry. apply Array_sort_perm.
Qed.

Lemma newer_first_of_keys (logs : list AuditLogEntry.t) :
  all_dates Date_getTime logs ->
  StronglySorted (larger_first (time_key Date_getTime)) logs ->
  StronglySorted (newer_first Date_getTime) logs.
Proof.
  induction logs as [|a logs IH]; intros D Hs; [constructor|].
  apply StronglySorted_inv in Hs. destruct Hs as [Hl Ha].
  unfold all_dates in D. apply Forall_cons_iff in D. destruct D as [Da Dl].
  constructor; [now apply IH|].
  rewrite List.Forall_forall in *. intros b Hb.
  specialize (Ha b Hb). specialize (Dl b Hb).
  unfold larger_first, time_key in Ha. unfold newer_first.
  destruct (time_of Date_getTime a) as [ta|]; [|congruence].
  destruct (time_of Date_getTime b) as [tb|]; [|congruence].
  now exists ta, tb.
Qed.

Lemma Array_sort_newer_first (logs : list AuditLogEntry.t) :
  all_dates Date_getTime logs ->
  StronglySorted (newer_first Date_getTime)
    (Array_sort (SortCompare (newestFirst Date_getTime)) logs).
Proof.
  intros D. apply newer_first_of_keys; [now apply all_dates_sorted|].
  rewrite (Array_sort_dates _ D).
  apply (Array_sort_sorted _ _ newestFirst_dates_key).
Qed.

Lemma rows_selected (st : AuditLogViewer.State) :
  fst (filteredLogs Date_getTime st)
  = Array_sort (SortCompare (newestFirst Date_getTime)) (selected st).
Proof. reflexivity. Qed.

Lemma filteredLogs_In (st : AuditLogViewer.State) (log : AuditLogEntry.t) :
  In log (fst (filteredLogs Date_getTime st))
  <-> In log (allLogs st)
      /\ passes (actionType_or_undefined (selectedActionType st))
           (text_or_undefined (searchText st)) log = true.
Proof.
  rewrite rows_selected.
  pose proof (Array_sort_perm (SortCompare (newestFirst Date_getTime))
                (selected st)) as P.
  unfold selected in *. rewrite filterAndSearchAuditLogs_filter in *.
  rewrite <- List.filter_In. split; apply Permutation_in;
    [exact P | symmetry; exact P].
Qed.

(** X19: the rows of the viewer are the entries that pass the filter and
    the search, each as many times as it is in the log.  When the time
    stamp of each of them is a date, the rows are in the order of their
    times, the newest first: no row is older than the row below it.  (With
    a time stamp that is not a date the comparator gives NaN and the order
    of the rows is the implementation's.) *)
Theorem filteredLogs_newest_first (st : AuditLogViewer.State) :
  Permutation (fst (filteredLogs Date_getTime st)) (selected st)
  /\ (all_dates Date_getTime (selected st) ->
      StronglySorted (newer_first Date_getTime)
        (fst (filteredLogs Date_getTime st)))
  /\ (all_dates Date_getTime (allLogs st) ->
      all_dates Date_getTime (selected st))
  /\ (forall log : AuditLogEntry.t,
        In log (fst (filteredLogs Date_getTime st))
        <-> In log (allLogs st)
            /\ passes (actionType_or_undefined (selectedActionType st))
                 (text_or_undefined (searchText st)) log = true)
  /\ length (fst (filteredLogs Date_getTime st)) <= length (allLogs st).
Proof.
  rewrite rows_selected.
  assert (P : Permutation
                (Array_sort (SortCompare (newestFirst Date_getTime))
                   (selected st))
                (selected st)) by apply Array_sort_perm.
  split; [exact P|].
  split; [apply Array_sort_newer_first|].
  split.
  { unfold selected. rewrite filterAndSearchAuditLogs_filter.
    apply all_dates_filter. }
  split.
  - intros log. rewrite <- rows_selected. apply filteredLogs_In.
  - rewrite (Permutation_length P). unfold selected.
    rewrite filterAndSearchAuditLogs_filter. apply List.filter_length_le.
Qed.

Lemma returns_its_argument_true
    (logs : list AuditLogEntry.t)
    (actionType : option AuditActionType) (text : option string) :
  returns_its_argument actionType text = true ->
  filterAndSearchAuditLogs logs actionType text = logs.
Proof.
  unfold returns_its_argument, filterAndSearchAuditLogs.
  destruct actionType as [a|].
  { now rewrite AuditActionType_string_truthy. }
  destruct text as [t|]; [|reflexivity]. simpl.
  destruct (truthy t); [|reflexivity]. simpl.
  unfold searchAuditLogs. now intros ->.
Qed.

(** The logs a state holds after its rows were computed are the logs it
    held, possibly sorted. *)
Lemma filteredLogs_allLogs (st : AuditLogViewer.State) :
  allLogs (snd (filteredLogs Date_getTime st)) = allLogs st
  \/ allLogs (snd (filteredLogs Date_getTime st))
     = Array_sort (SortCompare (newestFirst Date_getTime)) (allLogs st).
Proof.
  unfold filteredLogs.
  destruct (returns_its_argument _ _) eqn:R; [|now left].
  right. simpl. now rewrite (returns_its_argument_true _ _ _ R).
Qed.

Lemma rows_of_sorted_logs
    (logs : list AuditLogEntry.t)
    (actionType : option AuditActionType) (text : option string) :
  all_dates Date_getTime logs ->
  Array_sort (SortCompare (newestFirst Date_getTime))
    (filterAndSearchAuditLogs
       (Array_sort (SortCompare (newestFirst Date_getTime)) logs)
       actionType text)
  = Array_sort (SortCompare (newestFirst Date_getTime))
      (filterAndSearchAuditLogs logs actionType text).
Proof.
  intros D. rewrite !filterAndSearchAuditLogs_filter.
  rewrite (Array_sort_dates _
             (all_dates_filter _ _ (all_dates_sorted _ D))).
  rewrite (Array_sort_dates _ (all_dates_filter _ _ D)).
  rewrite (Array_sort_dates _ D).
  rewrite (filter_Array_sort _ _ newestFirst_dates_key).
  apply (Array_sort_idempotent _ _ newestFirst_dates_key).
Qed.

(** X20: the sort in place does not show when the time stamps of the log
    are dates.  When no filter is set, [filteredLogs] sorts the array of
    [allLogs] itself; whatever filter and search text are chosen next, the
    rows are those that the untouched log would give, and computing the
    rows again gives the same rows.  The log left is a rearrangement of
    the log, so its time stamps are dates as well. *)
Theorem filteredLogs_sort_in_place_unobservable
    (st : AuditLogViewer.State)
    (selected' : option AuditActionType) (text' : string) :
  all_dates Date_getTime (allLogs st) ->
  fst (filteredLogs Date_getTime
         (setSelectedActionType selected'
            (setSearchText text' (snd (filteredLogs Date_getTime st)))))
  = fst (filteredLogs Date_getTime
           (setSelectedActionType selected' (setSearchText text' st)))
  /\ fst (filteredLogs Date_getTime (snd (filteredLogs Date_getTime st)))
     = fst (filteredLogs Date_getTime st)
  /\ Permutation (allLogs (snd (filteredLogs Date_getTime st))) (allLogs st)
  /\ all_dates Date_getTime (allLogs (snd (filteredLogs Date_getTime st))).
Proof.
  intros D.
  assert (F : forall sel txt,
             Array_sort (SortCompare (newestFirst Date_getTime))
               (filterAndSearchAuditLogs
                  (allLogs (snd (filteredLogs Date_getTime st))) sel txt)
             = Array_sort (SortCompare (newestFirst Date_getTime))
                 (filterAndSearchAuditLogs (allLogs st) sel txt)).
  { intros sel txt.
    destruct (filteredLogs_allLogs st) as [-> | ->]; [reflexivity|].
    now apply rows_of_sorted_logs. }
  split; [apply F|]. split; [|split].
  - rewrite !rows_selected. unfold selected.
    assert (S : searchText (snd (filteredLogs Date_getTime st)) = searchText st
                /\ selectedActionType (snd (filteredLogs Date_getTime st))
                   = selectedActionType st).
    { unfold filteredLogs. now destruct (returns_its_argument _ _). }
    destruct S as [-> ->]. apply F.
  - destruct (filteredLogs_allLogs st) as [-> | ->]; [reflexivity|].
    apply Array_sort_perm.
  - destruct (filteredLogs_allLogs st) as [-> | ->]; [exact D|].
    now apply all_dates_sorted.
Qed.

Lemma written_before_compare (a b : AuditLogEntry.t) :
  written_before Date_getTime a b ->
  (SortCompare (newestFirst Date_getTime) b a < 0)%Z.
Proof.
  intros (ta & tb & Ea & Eb & Lt).
  unfold SortCompare, newestFirst. unfold time_of in Ea, Eb.
  rewrite Ea, Eb. lia.
Qed.

Lemma StronglySorted_impl {A : Type} (R R' : A -> A -> Prop) (l : list A) :
  (forall a b, R a b -> R' a b) ->
  StronglySorted R l -> StronglySorted R' l.
Proof.
  intros I. induction 1 as [|a l Hl IH Ha]; constructor; [exact IH|].
  eapply List.Forall_impl; [|exact Ha]. intros b. apply I.
Qed.

(** X21: when the entries of the log were written at strictly increasing
    times, the viewer with no filter and no search text shows the log in
    reverse: the entry appended last is the first row. *)
Theorem filteredLogs_reverses_the_log (st : AuditLogViewer.State) :
  StronglySorted (written_before Date_getTime) (allLogs st) ->
  selectedActionType st = None ->
  searchText st = "" ->
  fst (filteredLogs Date_getTime st) = List.rev (allLogs st).
Proof.
  intros Hs Hsel Htxt. rewrite rows_selected. unfold selected.
  rewrite Hsel, Htxt. simpl.
  apply Array_sort_increasing.
  eapply StronglySorted_impl; [|exact Hs].
  intros a b. apply written_before_compare.
Qed.

(** X22: what the viewer shows under the filters: "no entries yet" exactly
    when the log is empty, "no matching entries" exactly when the log has
    entries and none passes the filter and the search, and otherwise a
    table that has a row. *)
Theorem body_cases (st : AuditLogViewer.State) :
  (body Date_getTime st = NoEntriesYet <-> allLogs st = [])
  /\ (body Date_getTime st = NoMatchingEntries
      <-> allLogs st <> [] /\ selected st = [])
  /\ (forall rows, body Date_getTime st = Table rows ->
        rows = fst (filteredLogs Date_getTime st) /\ rows <> []
        /\ Permutation rows (selected st)).
Proof.
  unfold body. rewrite rows_selected.
  pose proof (Array_sort_perm (SortCompare (newestFirst Date_getTime))
                (selected st)) as P.
  pose proof (Permutation_length P) as Len.
  assert (E : allLogs st = [] -> selected st = []).
  { unfold selected. intros ->. now rewrite filterAndSearchAuditLogs_filter. }
  destruct (selected st) as [|r rs] eqn:S.
  - simpl. destruct (allLogs st) as [|x l] eqn:L; simpl.
    + split; [split; reflexivity|].
      split; [split; [discriminate | intros [Hx _]; congruence]|].
      intros rows; discriminate.
    + split; [split; discriminate|].
      split; [split; [intros _; split; [discriminate | reflexivity]
                     | reflexivity]|].
      intros rows; discriminate.
  - destruct (Array_sort (SortCompare (newestFirst Date_getTime)) (r :: rs))
      as [|r' rs'] eqn:Srt; [simpl in Len; discriminate|].
    simpl.
    split; [split; [discriminate | intros L; apply E in L; discriminate]|].
    split; [split; [discriminate | intros [_ Hx]; discriminate]|].
    intros rows Hr. injection Hr as <-.
    split; [reflexivity|]. split; [discriminate | exact P].
Qed.

(** X24: the cell of the loan id shows the first eight characters of the
    id and three dots; an id of eight characters or fewer is shown whole,
    and the dots are there all the same. *)
Theorem loanIdCell_shape (log : AuditLogEntry.t) :
  (exists shown : string,
     loanIdCell log = shown ++ "..."
     /\ String.length shown <= 8
     /\ startsWith shown (AuditLogEntry.loanId log) = true)
  /\ (String.length (AuditLogEntry.loanId log) <= 8 ->
      loanIdCell log = AuditLogEntry.loanId log ++ "...").
Proof.
  unfold loanIdCell. split.
  - exists (substring 0 8 (AuditLogEntry.loanId log)).
    split; [reflexivity|]. split; [apply length_substring|].
    apply startsWith_spec. apply substring_prefix.
  - intros Hlen. now rewrite substring_short.
Qed.

Context `{!Platform} `{!JSONLaws (list AuditLogEntry.t)}.

(** X25: what is logged gets shown.  After [logAudit] and a refresh of the
    viewer, the new entry is among the rows whenever it passes the filter
    and the search that are set; with nothing set it always is. *)
Theorem refreshLogs_shows_logged_entry
    (e : AuditLogEntry.t) (w : World) (st : AuditLogViewer.State) :
  (passes (actionType_or_undefined (selectedActionType st))
     (text_or_undefined (searchText st)) e = true ->
   In e (fst (filteredLogs Date_getTime (refreshLogs (logAudit e w) st))))
  /\ (selectedActionType st = None -> searchText st = "" ->
      In e (fst (filteredLogs Date_getTime (refreshLogs (logAudit e w) st))))
  /\ Permutation
       (fst (filteredLogs Date_getTime
               (setSelectedActionType None
                  (setSearchText "" (refreshLogs (logAudit e w) st)))))
       (e :: getAuditLogs w).
Proof.
  assert (R : forall st',
             allLogs st' = (getAuditLogs w ++ [e])%list ->
             passes (actionType_or_undefined (selectedActionType st'))
               (text_or_undefined (searchText st')) e = true ->
             In e (fst (filteredLogs Date_getTime st'))).
  { intros st' Hl Hp.
    apply filteredLogs_In.
    split; [|exact Hp]. rewrite Hl. apply List.in_or_app. right. now left. }
  assert (L : allLogs (refreshLogs (logAudit e w) st)
              = (getAuditLogs w ++ [e])%list).
  { simpl. apply getAuditLogs_logAudit. }
  split; [intros Hp; now apply R|]. split.
  - intros Hsel Htxt. apply R; [exact L|]. simpl. now rewrite Hsel, Htxt.
  - rewrite rows_selected. rewrite Array_sort_perm. unfold selected. simpl.
    rewrite getAuditLogs_logAudit. symmetry. apply Permutation_cons_append.
Qed.

End ViewerFacts.


(** ** The reference platform *)

(** The serialization of the reference platform meets the laws. *)
Lemma positive_of_bits_of_positive (p : positive) :
  Reference.positive_of_bits (Reference.bits_of_positive p) = Some p.
Proof.
  induction p as [p IH|p IH|]; simpl; try reflexivity.
  - rewrite IH. destruct p; reflexivity.
  - now rewrite IH.
Qed.

Lemma bits_of_positive_truthy (p : positive) :
  truthy (Reference.bits_of_positive p) = true.
Proof. destruct p; reflexivity. Qed.

Lemma Reference_json_laws `{Countable A} : @JSONLaws A Reference.json.
Proof.
  split; intros a; simpl.
  - rewrite positive_of_bits_of_positive. apply decode_encode.
  - apply bits_of_positive_truthy.
Qed.

(** C7 on an empty store and on the corrupt store of the tests. *)
Lemma getAuditLogs_fails_soft_witness :
  (getItem AUDIT_STORAGE_KEY empty_world = None
   /\ @getAuditLogs Reference.json_logs empty_world = [])
  /\ (getItem AUDIT_STORAGE_KEY corrupt_world = Some "invalid json{{{"
      /\ @JSON_parse _ Reference.json_logs "invalid json{{{" = None
      /\ @getAuditLogs Reference.json_logs corrupt_world = []).
Proof.
  split.
  - split; [reflexivity|].
    apply (@getAuditLogs_fails_soft Reference.json_logs empty_world).
    left. reflexivity.
  - split; [reflexivity|]. split; [reflexivity|].
    apply (@getAuditLogs_fails_soft Reference.json_logs corrupt_world).
    right. exists "invalid json{{{". split; reflexivity.
Defined.

(** C3 on the empty store: the first entry logged is the whole log. *)
Lemma logAudit_append_only_witness :
  @getAuditLogs Reference.json_logs empty_world = []
  /\ @getAuditLogs Reference.json_logs
       (@logAudit Reference.json_logs log_1 empty_world)
     = ([] ++ [log_1])%list.
Proof.
  assert (H : @getAuditLogs Reference.json_logs empty_world = [])
    by reflexivity.
  split; [exact H|].
  exact (proj1 (@logAudit_append_only Reference.json_logs Reference.platform
                  Reference_json_laws [] log_1 empty_world H)).
Defined.

(** C9 on the three entries of the tests. *)
Lemma persistence_round_trip_witness :
  @JSONLaws _ Reference.json_logs
  /\ @getAuditLogs Reference.json_logs
       (@saveAuditLogs Reference.json_logs test_logs empty_world)
     = test_logs.
Proof.
  split; [exact Reference_json_laws|].
  exact (proj1 (@persistence_round_trip Reference.json_logs
                  Reference_json_laws test_logs empty_world)).
Defined.

(** C8 on the manual approval of the tests. *)
Lemma status_fields_only_on_status_changes_witness :
  @JSONLaws _ Reference.json_logs
  /\ exists e : AuditLogEntry.t,
       @getAuditLogs Reference.json_logs
         (@logManualStatusChange Reference.json_logs Reference.platform
            (LoanPick.mk "loan1" "Jane Doe" 25000) pending approved
            empty_world)
       = (@getAuditLogs Reference.json_logs empty_world ++ [e])%list
       /\ AuditLogEntry.actionType e = STATUS_CHANGED_MANUAL
       /\ AuditLogEntry.previousStatus e = Some pending
       /\ AuditLogEntry.newStatus e = Some approved.
Proof.
  split; [exact Reference_json_laws|].
  exact (proj1 (@status_fields_only_on_status_changes Reference.json_logs
                  Reference.platform Reference_json_laws empty_world)
           (LoanPick.mk "loan1" "Jane Doe" 25000) pending approved).
Defined.

(** The round trip and the logging functions, run on the reference
    platform. *)
Example reference_round_trip :
  @getAuditLogs Reference.json_logs
    (@saveAuditLogs Reference.json_logs test_logs empty_world)
  = test_logs.
Proof. vm_compute. reflexivity. Qed.

Example reference_logManualStatusChange :
  @getAuditLogs Reference.json_logs
    (@logManualStatusChange Reference.json_logs Reference.platform
       (LoanPick.mk "loan1" "Jane Doe" 25000) pending approved empty_world)
  = [ {| AuditLogEntry.id := "lr0k3x90qz";
         AuditLogEntry.timestamp := "2024-01-15T10:30:00.1Z";
         AuditLogEntry.actionType := STATUS_CHANGED_MANUAL;
         AuditLogEntry.loanId := "loan1";
         AuditLogEntry.applicantName := "Jane Doe";
         AuditLogEntry.amount := 25000;
         AuditLogEntry.previousStatus := Some pending;
         AuditLogEntry.newStatus := Some approved;
         AuditLogEntry.description :=
           "Loan for Jane Doe manually changed from pending to approved" |} ].
Proof. vm_compute. reflexivity. Qed.

(** C1 on a stored loan of 100001 over 60 months. *)
Lemma autoDecideLoan_rule_witness :
  findLoan "test-id" (@getLoans Reference.json_loans
                        (world_with (mock_loan 100001 60)))
  = Some (mock_loan 100001 60)
  /\ exists (st : LoanStatus) (w' : World),
       @autoDecideLoan Reference.json_logs Reference.json_loans
         Reference.platform "test-id" (world_with (mock_loan 100001 60))
       = Ok (st, w')
       /\ (st = approved
           <-> (LoanApplication.amount (mock_loan 100001 60) <= 100000)%Q
               /\ (LoanApplication.termMonths (mock_loan 100001 60) <= 60)%Z)
       /\ (st = rejected
           <-> (100000 < LoanApplication.amount (mock_loan 100001 60))%Q
               \/ (60 < LoanApplication.termMonths (mock_loan 100001 60))%Z).
Proof.
  assert (F : findLoan "test-id"
                (@getLoans Reference.json_loans
                   (world_with (mock_loan 100001 60)))
              = Some (mock_loan 100001 60))
    by (vm_compute; reflexivity).
  split; [exact F|].
  exact (proj1 (@autoDecideLoan_rule Reference.json_logs Reference.json_loans
                  Reference.platform "test-id" (mock_loan 100001 60)
                  (world_with (mock_loan 100001 60)) F)).
Defined.

Example autoDecide_at_both_bounds :
  autoDecide_outcome (mock_loan 100000 60)
  = Some (approved, [approved],
          [(STATUS_CHANGED_AUTO, Some pending, Some approved)]).
Proof. vm_compute. reflexivity. Qed.

Example autoDecide_amount_over :
  autoDecide_outcome (mock_loan 100001 60)
  = Some (rejected, [rejected],
          [(STATUS_CHANGED_AUTO, Some pending, Some rejected)]).
Proof. vm_compute. reflexivity. Qed.

Example autoDecide_term_over :
  autoDecide_outcome (mock_loan 100000 61)
  = Some (rejected, [rejected],
          [(STATUS_CHANGED_AUTO, Some pending, Some rejected)]).
Proof. vm_compute. reflexivity. Qed.

(** The two loans of [TEST_DATA], "will be auto-approved" and "will be
    auto-rejected". *)
Example autoDecide_TEST_DATA :
  autoDecide_outcome (mock_loan 50000 24)
  = Some (approved, [approved],
          [(STATUS_CHANGED_AUTO, Some pending, Some approved)])
  /\ autoDecide_outcome (mock_loan 150000 72)
     = Some (rejected, [rejected],
             [(STATUS_CHANGED_AUTO, Some pending, Some rejected)]).
Proof. split; vm_compute; reflexivity. Qed.

Example autoDecide_unknown_id :
  @autoDecideLoan Reference.json_logs Reference.json_loans Reference.platform
    "no-such-loan" (world_with (mock_loan 100000 60))
  = Throw (NotFound "no-such-loan").
Proof. vm_compute. reflexivity. Qed.

(** C6 on the blank form. *)
Lemma createLoanApplication_validation_order_witness :
  ~ name_given blank_input
  /\ @createLoanApplication Reference.json_logs Reference.json_loans
       Reference.platform blank_input empty_world
     = Throw (Validation NameRequired).
Proof.
  assert (N : ~ name_given blank_input).
  { intros G. apply G. reflexivity. }
  split; [exact N|].
  exact (proj1 (@createLoanApplication_validation_order Reference.json_logs
                  Reference.json_loans Reference.platform blank_input
                  empty_world) N).
Defined.

(** C4 (amended) on a query of three spaces. *)
Lemma searchAuditLogs_trimmed_substring_witness :
  whitespace_only "   " = true
  /\ searchAuditLogs test_logs "   " = test_logs.
Proof.
  assert (W : whitespace_only "   " = true) by reflexivity.
  split; [exact W|].
  exact (proj1 (proj2 (searchAuditLogs_trimmed_substring test_logs "   ")) W).
Defined.

Example create_valid :
  create_outcome (NewLoan.mk "  Alice Smith " 25000 24 (Some 0.08%Q))
  = Ok ("Alice Smith", pending, ["Alice Smith"], [LOAN_CREATED]).
Proof. vm_compute. reflexivity. Qed.

Example create_amount_missing :
  create_outcome (NewLoan.mk "John Doe" 0 0 None)
  = Throw (Validation AmountRequired).
Proof. reflexivity. Qed.

Example create_term_missing :
  create_outcome (NewLoan.mk "John Doe" 10000 0 None)
  = Throw (Validation TermRequired).
Proof. reflexivity. Qed.

Example create_rate_missing :
  create_outcome (NewLoan.mk "John Doe" 10000 12 None)
  = Throw (Validation InterestRateRequired).
Proof. reflexivity. Qed.

Example create_rate_negative :
  create_outcome (NewLoan.mk "John Doe" 10000 12 (Some (-0.01)%Q))
  = Throw (Validation InterestRateRequired).
Proof. reflexivity. Qed.

(** ** The further properties on the data of the tests *)

(** X6 on the second entry of the tests. *)
Lemma searchAuditLogs_finds_by_field_witness :
  In log_2 test_logs
  /\ In log_2 (searchAuditLogs test_logs (AuditLogEntry.applicantName log_2))
  /\ In log_2 (searchAuditLogs test_logs (AuditLogEntry.loanId log_2))
  /\ In log_2 (searchAuditLogs test_logs (AuditLogEntry.description log_2)).
Proof.
  assert (Hin : In log_2 test_logs) by (right; left; reflexivity).
  split; [exact Hin|].
  exact (searchAuditLogs_finds_by_field test_logs log_2 Hin).
Defined.

(** X8 on the key of the loan list. *)
Lemma audit_log_keeps_to_its_key_witness :
  "tredgate_loans" <> AUDIT_STORAGE_KEY
  /\ getItem "tredgate_loans"
       (@logAudit Reference.json_logs log_1 (world_with (mock_loan 50000 24)))
     = getItem "tredgate_loans" (world_with (mock_loan 50000 24)).
Proof.
  assert (Hne : "tredgate_loans" <> AUDIT_STORAGE_KEY) by discriminate.
  split; [exact Hne|].
  exact (proj1 (proj2 (proj2
           (@audit_log_keeps_to_its_key Reference.json_logs Reference.platform
              "tredgate_loans" (world_with (mock_loan 50000 24)) Hne)))
           log_1).
Defined.

(** X10 on the store of the three entries of the tests. *)
Lemma clearAuditLogs_resets_witness :
  @JSONLaws _ Reference.json_logs
  /\ @getAuditLogs Reference.json_logs
       (clearAuditLogs (@saveAuditLogs Reference.json_logs test_logs empty_world))
     = [].
Proof.
  split; [exact Reference_json_laws|].
  exact (proj1 (proj2 (proj2 (proj2
           (@clearAuditLogs_resets Reference.json_logs Reference_json_laws
              empty_world)))) test_logs).
Defined.

(** X11 on the corrupt store of the tests. *)
Lemma logAudit_overwrites_unreadable_witness :
  getItem AUDIT_STORAGE_KEY corrupt_world = Some "invalid json{{{"
  /\ @JSON_parse _ Reference.json_logs "invalid json{{{" = None
  /\ @getAuditLogs Reference.json_logs
       (@logAudit Reference.json_logs log_1 corrupt_world)
     = [log_1].
Proof.
  assert (Hs : getItem AUDIT_STORAGE_KEY corrupt_world
               = Some "invalid json{{{") by reflexivity.
  assert (Hp : @JSON_parse _ Reference.json_logs "invalid json{{{" = None)
    by reflexivity.
  split; [exact Hs|]. split; [exact Hp|].
  exact (proj1 (@logAudit_overwrites_unreadable Reference.json_logs
                  Reference_json_laws "invalid json{{{" log_1 corrupt_world
                  Hs (or_intror Hp))).
Defined.

(** X12 on the entries of the tests. *)
Lemma saveAuditLogs_overwrites_witness :
  @JSONLaws _ Reference.json_logs
  /\ @getAuditLogs Reference.json_logs
       (@saveAuditLogs Reference.json_logs test_logs
          (@saveAuditLogs Reference.json_logs search_logs empty_world))
     = test_logs.
Proof.
  split; [exact Reference_json_laws|].
  exact (proj1 (proj2
           (@saveAuditLogs_overwrites Reference.json_logs Reference_json_laws
              search_logs test_logs log_1 empty_world))).
Defined.

(** X13 on the view "LOAN_CREATED, John" of the tests. *)
Lemma logAudit_extends_views_witness :
  @JSONLaws _ Reference.json_logs
  /\ filterAndSearchAuditLogs
       (@getAuditLogs Reference.json_logs
          (@logAudit Reference.json_logs log_1
             (@saveAuditLogs Reference.json_logs test_logs empty_world)))
       (Some LOAN_CREATED) (Some "John")
     = (filterAndSearchAuditLogs
          (@getAuditLogs Reference.json_logs
             (@saveAuditLogs Reference.json_logs test_logs empty_world))
          (Some LOAN_CREATED) (Some "John")
        ++ filterAndSearchAuditLogs [log_1] (Some LOAN_CREATED) (Some "John"))%list.
Proof.
  split; [exact Reference_json_laws|].
  exact (proj1 (@logAudit_extends_views Reference.json_logs Reference_json_laws
                  log_1
                  (@saveAuditLogs Reference.json_logs test_logs empty_world)
                  (Some LOAN_CREATED) (Some "John"))).
Defined.

(** X14 on the manual approval of the tests. *)
Lemma status_change_found_by_status_witness :
  @JSONLaws _ Reference.json_logs
  /\ exists e : AuditLogEntry.t,
       @getAuditLogs Reference.json_logs
         (@logManualStatusChange Reference.json_logs Reference.platform
            (LoanPick.mk "loan1" "Jane Doe" 25000) pending approved
            empty_world)
       = (@getAuditLogs Reference.json_logs empty_world ++ [e])%list
       /\ In e (searchAuditLogs
                  (@getAuditLogs Reference.json_logs
                     (@logManualStatusChange Reference.json_logs
                        Reference.platform
                        (LoanPick.mk "loan1" "Jane Doe" 25000) pending approved
                        empty_world))
                  (LoanStatus_string pending))
       /\ In e (searchAuditLogs
                  (@getAuditLogs Reference.json_logs
                     (@logManualStatusChange Reference.json_logs
                        Reference.platform
                        (LoanPick.mk "loan1" "Jane Doe" 25000) pending approved
                        empty_world))
                  (LoanStatus_string approved)).
Proof.
  split; [exact Reference_json_laws|].
  exact (proj1 (@status_change_found_by_status Reference.json_logs
                  Reference.platform Reference_json_laws
                  (LoanPick.mk "loan1" "Jane Doe" 25000) pending approved
                  empty_world)).
Defined.

(** X15 on the deletion of the loan of the tests. *)
Lemma logged_entry_found_by_loan_witness :
  @JSONLaws _ Reference.json_logs
  /\ exists e : AuditLogEntry.t,
       @getAuditLogs Reference.json_logs
         (@perform Reference.json_logs Reference.platform
            (CallLoanDeleted (mock_loan 40000 36)) empty_world)
       = (@getAuditLogs Reference.json_logs empty_world ++ [e])%list
       /\ In e (searchAuditLogs
                  (@getAuditLogs Reference.json_logs
                     (@perform Reference.json_logs Reference.platform
                        (CallLoanDeleted (mock_loan 40000 36)) empty_world))
                  (LoanPick.applicantName
                     (AuditCall_loan (CallLoanDeleted (mock_loan 40000 36)))))
       /\ In e (searchAuditLogs
                  (@getAuditLogs Reference.json_logs
                     (@perform Reference.json_logs Reference.platform
                        (CallLoanDeleted (mock_loan 40000 36)) empty_world))
                  (LoanPick.id
                     (AuditCall_loan (CallLoanDeleted (mock_loan 40000 36))))).
Proof.
  split; [exact Reference_json_laws|].
  exact (@logged_entry_found_by_loan Reference.json_logs Reference.platform
           Reference_json_laws (CallLoanDeleted (mock_loan 40000 36))
           empty_world).
Defined.

(** X17 on the loan that is approved while the dialog is open. *)
Lemma LoanList_events_from_pending_rows_witness :
  LoanList.offered_steps LoanList.setup delete_after_approve
  /\ Forall (fun ev => clicked_when_pending delete_after_approve
                         (LoanList.Emit_button ev) (LoanList.Emit_id ev))
       (LoanList.emitted (LoanList.run delete_after_approve LoanList.setup)).
Proof.
  assert (Hoff : LoanList.offered_steps LoanList.setup delete_after_approve).
  { simpl. repeat split; now left. }
  split; [exact Hoff|].
  exact (proj1 (LoanList_events_from_pending_rows delete_after_approve Hoff)).
Defined.

Lemma test_logs_all_dates : all_dates test_getTime test_logs.
Proof. repeat constructor; discriminate. Qed.

(** X19 on the three entries of the tests. *)
Lemma filteredLogs_newest_first_witness :
  all_dates test_getTime (selected viewer_of_tests)
  /\ StronglySorted (newer_first test_getTime)
       (fst (AuditLogViewer.filteredLogs test_getTime viewer_of_tests)).
Proof.
  assert (D : all_dates test_getTime (selected viewer_of_tests))
    by exact test_logs_all_dates.
  split; [exact D|].
  exact (proj1 (proj2
           (filteredLogs_newest_first test_getTime viewer_of_tests)) D).
Defined.

(** X20 on the three entries of the tests: the rows for "LOAN_CREATED" and
    "john" after the log was sorted in place. *)
Lemma filteredLogs_sort_in_place_unobservable_witness :
  all_dates test_getTime (AuditLogViewer.allLogs viewer_of_tests)
  /\ fst (AuditLogViewer.filteredLogs test_getTime
            (AuditLogViewer.setSelectedActionType (Some LOAN_CREATED)
               (AuditLogViewer.setSearchText "john"
                  (snd (AuditLogViewer.filteredLogs test_getTime
                          viewer_of_tests)))))
     = fst (AuditLogViewer.filteredLogs test_getTime
              (AuditLogViewer.setSelectedActionType (Some LOAN_CREATED)
                 (AuditLogViewer.setSearchText "john" viewer_of_tests))).
Proof.
  assert (D : all_dates test_getTime (AuditLogViewer.allLogs viewer_of_tests))
    by exact test_logs_all_dates.
  split; [exact D|].
  exact (proj1 (filteredLogs_sort_in_place_unobservable test_getTime
                  viewer_of_tests (Some LOAN_CREATED) "john" D)).
Defined.

Lemma test_logs_written_in_order :
  StronglySorted (written_before test_getTime) test_logs.
Proof.
  repeat constructor;
    eexists _, _; (split; [reflexivity|]); (split; [reflexivity|]);
    reflexivity.
Qed.

(** X21 on the three entries of the tests, written on three days. *)
Lemma filteredLogs_reverses_the_log_witness :
  StronglySorted (written_before test_getTime)
    (AuditLogViewer.allLogs viewer_of_tests)
  /\ fst (AuditLogViewer.filteredLogs test_getTime viewer_of_tests)
     = List.rev (AuditLogViewer.allLogs viewer_of_tests).
Proof.
  assert (Hs : StronglySorted (written_before test_getTime)
                 (AuditLogViewer.allLogs viewer_of_tests))
    by exact test_logs_written_in_order.
  split; [exact Hs|].
  exact (filteredLogs_reverses_the_log test_getTime viewer_of_tests
           Hs eq_refl eq_refl).
Defined.

(** X25 on the viewer of the tests, after a first entry is logged. *)
Lemma refreshLogs_shows_logged_entry_witness :
  @JSONLaws _ Reference.json_logs
  /\ Permutation
       (fst (AuditLogViewer.filteredLogs test_getTime
               (AuditLogViewer.setSelectedActionType None
                  (AuditLogViewer.setSearchText ""
                     (@AuditLogViewer.refreshLogs Reference.json_logs
                        (@logAudit Reference.json_logs log_1 empty_world)
                        viewer_of_tests)))))
       (log_1 :: @getAuditLogs Reference.json_logs empty_world).
Proof.
  split; [exact Reference_json_laws|].
  exact (proj2 (proj2
           (@refreshLogs_shows_logged_entry Reference.json_logs test_getTime
              Reference_json_laws log_1 empty_world viewer_of_tests))).
Defined.

(** The components, run on the data of the tests. *)
Example viewer_rows_unfiltered :
  fst (AuditLogViewer.filteredLogs test_getTime viewer_of_tests)
  = [log_3; log_2; log_1].
Proof. reflexivity. Qed.

Example viewer_rows_john :
  fst (AuditLogViewer.filteredLogs test_getTime
         (AuditLogViewer.setSearchText "John" viewer_of_tests))
  = [log_2; log_1].
Proof. reflexivity. Qed.

Example viewer_body_no_match :
  AuditLogViewer.body test_getTime
    (AuditLogViewer.setSelectedActionType (Some LOAN_DELETED) viewer_of_tests)
  = AuditLogViewer.NoMatchingEntries.
Proof. reflexivity. Qed.

Example viewer_body_setup :
  AuditLogViewer.body test_getTime AuditLogViewer.setup
  = AuditLogViewer.NoEntriesYet.
Proof. reflexivity. Qed.

Example loan_list_cancel_then_confirm :
  LoanList.emitted
    (LoanList.handle_all
       [LoanList.Click LoanList.Delete (mock_loan 50000 24);
        LoanList.ModalCancel;
        LoanList.ModalConfirm;
        LoanList.Click LoanList.Approve (mock_loan 50000 24)]
       LoanList.setup)
  = [LoanList.EmitApprove "test-id"].
Proof. reflexivity. Qed.
